(** * A ledger service over a transaction log and an accounts table

    Shallow embedding of [src/db.ts], of the request handlers of
    [src/server.ts] and of the SQL function [check_withdraw_request]
    that the setup instructions install in the database.

    Modelling conventions.
    - Amounts and balances are whole numbers, [Z].  PostgreSQL's
      [NUMERIC] holds them exactly; JavaScript holds them as binary64
      values, so that [+] and [-] in [db.ts] round ([Number.add],
      [Number.sub]).  The amount of a request is the number the JSON
      parser made of it, and the tables hold what the program wrote.
      Fractional amounts, and numbers beyond the largest finite
      binary64, are outside the model.
    - In the database [created_at] (a [TIMESTAMPTZ]) is an [option Z]:
      [None] is SQL [NULL], [Some t] an instant, and SQL compares
      instants.  JavaScript receives the text the database session
      writes for the instant and compares texts with [>=].  How the
      session reads and writes a [TIMESTAMPTZ] is PostgreSQL's business,
      not this repository's: the two routines are a parameter of the
      world ([Postgres.t]).
    - An [async] function is a state transformer on the [World] whose
      result is a settled promise (a value or a thrown [Error]) or a
      promise that is still pending.
    - What the store answers to a call (success, an error object, no
      answer in time) is read from a script held in the world.
    - A request runs alone, except in the last part of the definitions,
      where the two [await]s of a balance mutation are the points at
      which another request may run.
    - The request-logging middleware, and the durations and stack traces
      of the log lines, are left out. *)

From stdpp Require Import gmap strings list sorting.

Local Open Scope string_scope.
Local Open Scope Z_scope.

(** ** JavaScript numbers

    A whole number is a JavaScript [number] when its binary expansion
    has at most 53 significant bits.  The result of [+] or [-] is the
    exact result rounded to the nearest such number, a tie going to the
    even significand. *)

Module Number.

Definition round (z : Z) : Z :=
  let a := Z.abs z in
  if a <? 2 ^ 53 then z
  else
    (* [a = m * 2^e + r] with [2^52 ≤ m < 2^53] and [0 ≤ r < 2^e] *)
    let e := Z.log2 a - 52 in
    let m := Z.shiftr a e in
    let r := a - Z.shiftl m e in
    let half := Z.shiftl 1 (e - 1) in
    let m' :=
      if r <? half then m
      else if half <? r then m + 1
      else if Z.even m then m else m + 1 in
    Z.sgn z * Z.shiftl m' e.

Definition add (a b : Z) : Z := round (a + b).
Definition sub (a b : Z) : Z := round (a - b).

(** The whole numbers up to [2^53] in absolute value: each of them is a
    [number], and a sum or difference that stays among them is exact. *)
Definition safe (z : Z) : Prop := Z.abs z ≤ 2 ^ 53.

Global Instance safe_dec z : Decision (safe z).
Proof. unfold safe. apply _. Defined.

End Number.

(** ** The database session

    The input routine of [TIMESTAMPTZ] decides whether the text of a
    [timestamp] is accepted (a text it cannot read ends the statement
    with SQLSTATE 22007); its output routine writes an instant as text
    in the time zone of the session. *)

Module Postgres.
Record t := mk {
  timestamptz_in : string → bool;
  timestamptz_out : Z → string;
}.
End Postgres.

(** ** Data model ([db.ts], lines 3-24, and the two tables) *)

Module Transaction.
Record t := mk {
  id : string;
  type : string;
  amount : Z;
  accountId : string;
  timestamp : string;
}.
End Transaction.

Module DatabaseTransaction.
Record t := mk {
  id : string;
  type : string;
  amount : Z;
  account_id : string;
  timestamp : string;
  created_at : option Z;
}.
End DatabaseTransaction.

Module Account.
Record t := mk {
  balance : Z;
  updated_at : option Z;
}.
End Account.

(** The persistent store: the [transactions] table in insertion order
    and the [accounts] table keyed by its primary key [account_id]. *)
Record Store := mkStore {
  transactions : list DatabaseTransaction.t;
  accounts : gmap string Account.t;
}.

(** ** SQL fragments used by the database function *)

Module Sql.

(** [SUM] over no row is [NULL]. *)
Definition sum (xs : list Z) : option Z :=
  match xs with
  | [] => None
  | _ => Some (foldr Z.add 0 xs)
  end.

Definition coalesce (v : option Z) (d : Z) : Z :=
  match v with Some x => x | None => d end.

(** [a >= b] in three-valued logic: [NULL] when an operand is. *)
Definition ge (a b : option Z) : option bool :=
  match a, b with
  | Some x, Some y => Some (x >=? y)
  | _, _ => None
  end.

(** A [WHERE] clause keeps the rows on which the condition is true,
    not those on which it is false or [NULL]. *)
Definition holds (c : option bool) : bool :=
  match c with Some true => true | _ => false end.

(** [EXISTS (SELECT 1 FROM transactions w WHERE w.account_id =
    t.account_id AND w.type = 'withdraw' AND w.created_at >=
    t.created_at)] *)
Definition exists_withdraw_at_or_after
    (rows : list DatabaseTransaction.t) (t : DatabaseTransaction.t) : bool :=
  existsb (λ w,
      bool_decide (DatabaseTransaction.account_id w = DatabaseTransaction.account_id t)
      && bool_decide (DatabaseTransaction.type w = "withdraw")
      && holds (ge (DatabaseTransaction.created_at w) (DatabaseTransaction.created_at t)))
    rows.

(** [SELECT COALESCE(SUM(t.amount), 0) FROM transactions t WHERE
    t.account_id = p_account_id AND t.type = 'withdraw_request' AND
    NOT EXISTS (...)] *)
Definition pending_amount
    (rows : list DatabaseTransaction.t) (p_account_id : string) : Z :=
  coalesce
    (sum (DatabaseTransaction.amount <$>
          filter (λ t,
              bool_decide (DatabaseTransaction.account_id t = p_account_id)
              && bool_decide (DatabaseTransaction.type t = "withdraw_request")
              && negb (exists_withdraw_at_or_after rows t))
            rows))
    0.

(** [check_withdraw_request(p_account_id, p_requested_amount)], run at
    database time [now]: the function reads the balance under a row
    lock, creates the account with balance 0 when the row is absent,
    and compares the available balance with the requested amount. *)
Definition check_withdraw_request
    (now : Z) (s : Store) (p_account_id : string) (p_requested_amount : Z)
    : Store * bool :=
  let v_current_balance := Account.balance <$> (accounts s !! p_account_id) in
  let '(s, v_current_balance) :=
    match v_current_balance with
    | None =>
        (mkStore (transactions s)
           (<[p_account_id := Account.mk 0 (Some now)]> (accounts s)), 0)
    | Some b => (s, b)
    end in
  let v_pending_amount := pending_amount (transactions s) p_account_id in
  let v_available_balance := v_current_balance - coalesce (Some v_pending_amount) 0 in
  if v_available_balance >=? p_requested_amount then (s, true) else (s, false).

End Sql.

(** ** The world a request runs in *)

(** The error object a supabase-js call hands back in [{ data, error }]. *)
Module PostgrestError.
Record t := mk {
  code : string;
  message : string;
}.
End PostgrestError.

(** A failure of the infrastructure between the program and the
    database, with the code the error object carries.  The two codes the
    program tests for, [23505] (unique violation) and [PGRST116] (no row
    for [.single()]), are not among them: the store reports those when,
    and only when, the condition holds (see [insert_into_transactions]
    and [select_balance]). *)
Inductive Failure :=
  | connection_failure
  | undefined_function
  | internal_error.

Definition sqlstate (f : Failure) : string :=
  match f with
  | connection_failure => "08006"
  | undefined_function => "PGRST202"
  | internal_error => "XX000"
  end.

(** What the store does with one call: it answers, it answers with an
    error object, or it does not answer within the time the caller
    waits. *)
Inductive Reply :=
  | Answers
  | Fails (f : Failure) (message : string)
  | Silent.

Record SupabaseClient := createClient {
  supabaseUrl : string;
  supabaseKey : string;
}.

(** [process.env], as far as the program reads it. *)
Module process.
Record env := mk {
  SUPABASE_URL : option string;
  SUPABASE_SERVICE_ROLE_KEY : option string;
  PORT : option string;
  NODE_ENV : option string;
}.
End process.

Inductive Level := LOG | WARN | ERROR.

Inductive Json :=
  | JStr (s : string)
  | JNum (z : Z)
  | JUndefined.

(** One call of [console.log], [console.warn] or [console.error]: the
    text and the fields of the object printed after it.  Durations and
    stack traces, which depend on the wall clock and on the runtime, are
    left out of the fields. *)
Record LogEntry := mkLog {
  level : Level;
  text : string;
  fields : list (string * Json);
}.

Record World := mkWorld {
  env : process.env;
  supabase : option SupabaseClient;   (* [let supabase: SupabaseClient | null] *)
  store : Store;
  postgres : Postgres.t;              (* the session the statements run in *)
  now : Z;                            (* the clock read by [NOW()] and [new Date()] *)
  script : list Reply;                (* answers of the store to the next calls *)
  console : list LogEntry;            (* oldest entry first *)
}.

Definition set_supabase (c : SupabaseClient) (w : World) : World :=
  mkWorld (env w) (Some c) (store w) (postgres w) (now w) (script w) (console w).
Definition set_store (s : Store) (w : World) : World :=
  mkWorld (env w) (supabase w) s (postgres w) (now w) (script w) (console w).
Definition set_script (rs : list Reply) (w : World) : World :=
  mkWorld (env w) (supabase w) (store w) (postgres w) (now w) rs (console w).
Definition add_console (e : LogEntry) (w : World) : World :=
  mkWorld (env w) (supabase w) (store w) (postgres w) (now w) (script w) (console w ++ [e]).

(** ** Promises *)

Record Error := mkError { message : string }.

Inductive Promise (A : Type) :=
  | Fulfilled (a : A)
  | Rejected (e : Error)
  | Pending.
Arguments Fulfilled {A} a.
Arguments Rejected {A} e.
Arguments Pending {A}.

Definition Async (A : Type) : Type := World → World * Promise A.

Definition ret {A} (a : A) : Async A := λ w, (w, Fulfilled a).
Definition throw {A} (e : Error) : Async A := λ w, (w, Rejected e).
Definition bind {A B} (m : Async A) (k : A → Async B) : Async B :=
  λ w, match m w with
       | (w', Fulfilled a) => k a w'
       | (w', Rejected e) => (w', Rejected e)
       | (w', Pending) => (w', Pending)
       end.
(** [try { m } catch (error) { h error }] *)
Definition try_catch {A} (m : Async A) (h : Error → Async A) : Async A :=
  λ w, match m w with
       | (w', Rejected e) => h e w'
       | r => r
       end.

Notation "'await' x ':=' m 'in' k" := (bind m (λ x, k))
  (at level 10, x name, m at level 99, k at level 200).
Notation "m ';;' k" := (bind m (λ _, k))
  (at level 100, k at level 200, right associativity).

Definition console_log (l : Level) (t : string) (fs : list (string * Json)) : Async unit :=
  λ w, (add_console (mkLog l t fs) w, Fulfilled tt).

(** ** [db.ts] *)

(** JavaScript truthiness of a string that may be [undefined]. *)
Definition truthy (v : option string) : bool :=
  match v with
  | Some s => negb (bool_decide (s = ""))
  | None => false
  end.

Definition missing_credentials : string :=
  "Missing Supabase credentials: SUPABASE_URL and SUPABASE_SERVICE_ROLE_KEY must be set".

Definition getSupabaseClient : Async SupabaseClient :=
  λ w, match supabase w with
       | Some c => (w, Fulfilled c)
       | None =>
           let url := process.SUPABASE_URL (env w) in
           let serviceRoleKey := process.SUPABASE_SERVICE_ROLE_KEY (env w) in
           if negb (truthy url) || negb (truthy serviceRoleKey) then
             (w, Rejected (mkError missing_credentials))
           else
             let c := createClient (default "" url) (default "" serviceRoleKey) in
             (set_supabase c w, Fulfilled c)
       end.

(** *** The calls made through the client *)

Module Result.
Record t (A : Type) := mk {
  data : option A;
  error : option PostgrestError.t;
}.
Arguments mk {A} data error.
Arguments data {A} _.
Arguments error {A} _.
End Result.

(** One round trip to the store.  The next entry of the script (an
    exhausted script answers) decides whether the statement [run] is
    executed in the session and answered, answered with an error object
    (the statement has no effect), or left unanswered. *)
Definition next_reply (w : World) : Reply := hd Answers (script w).
Definition pop (w : World) : World := set_script (tail (script w)) w.

Definition call {A} (run : Postgres.t → Z → Store → Store * Result.t A)
    : Async (Result.t A) :=
  λ w,
    match next_reply w with
    | Answers =>
        let '(s, res) := run (postgres w) (now w) (store w) in
        (set_store s (pop w), Fulfilled res)
    | Fails f msg =>
        (pop w, Fulfilled (Result.mk None (Some (PostgrestError.mk (sqlstate f) msg))))
    | Silent => (pop w, Pending)
    end.

Definition valid_type (ty : string) : bool :=
  bool_decide (ty = "deposit") || bool_decide (ty = "withdraw_request")
  || bool_decide (ty = "withdraw").

Definition quoted (s : string) : string :=
  let q := String (Ascii.ascii_of_nat 34) EmptyString in q +:+ s +:+ q.

(** [.from("transactions").insert(row).select().single()]: the text of
    [timestamp] is read into the [TIMESTAMPTZ] column, then the [CHECK]
    on [type] and the primary key [id] are enforced by the table, the
    row constraint before the index; [created_at] takes its default
    [NOW()]. *)
Definition insert_into_transactions (row : DatabaseTransaction.t)
    (pg : Postgres.t) (now : Z) (s : Store)
    : Store * Result.t DatabaseTransaction.t :=
  if negb (Postgres.timestamptz_in pg (DatabaseTransaction.timestamp row)) then
    (s, Result.mk None (Some (PostgrestError.mk "22007"
          ("invalid input syntax for type timestamp with time zone: "
           +:+ quoted (DatabaseTransaction.timestamp row)))))
  else if negb (valid_type (DatabaseTransaction.type row)) then
    (s, Result.mk None (Some (PostgrestError.mk "23514"
          ("new row for relation " +:+ quoted "transactions"
           +:+ " violates check constraint " +:+ quoted "transactions_type_check"))))
  else if existsb (λ r, bool_decide (DatabaseTransaction.id r = DatabaseTransaction.id row))
            (transactions s) then
    (s, Result.mk None (Some (PostgrestError.mk "23505"
          ("duplicate key value violates unique constraint "
           +:+ quoted "transactions_pkey"))))
  else
    let stored := DatabaseTransaction.mk
      (DatabaseTransaction.id row) (DatabaseTransaction.type row)
      (DatabaseTransaction.amount row) (DatabaseTransaction.account_id row)
      (DatabaseTransaction.timestamp row) (Some now) in
    (mkStore (transactions s ++ [stored]) (accounts s), Result.mk (Some stored) None).

(** [.from("accounts").select("balance").eq("account_id", id).single()] *)
Definition select_balance (accountId : string)
    (pg : Postgres.t) (now : Z) (s : Store) : Store * Result.t Z :=
  match accounts s !! accountId with
  | Some a => (s, Result.mk (Some (Account.balance a)) None)
  | None =>
      (s, Result.mk None (Some (PostgrestError.mk "PGRST116"
            "JSON object requested, multiple (or no) rows returned")))
  end.

(** [.from("accounts").upsert({account_id, balance, updated_at},
    {onConflict: "account_id"})] *)
Definition upsert_account (accountId : string) (newBalance : Z)
    (pg : Postgres.t) (now : Z) (s : Store) : Store * Result.t unit :=
  (mkStore (transactions s)
     (<[accountId := Account.mk newBalance (Some now)]> (accounts s)),
   Result.mk None None).

(** [.rpc("check_withdraw_request", {p_account_id, p_requested_amount})] *)
Definition rpc_check_withdraw_request (accountId : string) (requestedAmount : Z)
    (pg : Postgres.t) (now : Z) (s : Store) : Store * Result.t bool :=
  let '(s, b) := Sql.check_withdraw_request now s accountId requestedAmount in
  (s, Result.mk (Some b) None).

(** The columns [id, amount, created_at] of a selected row, as
    JavaScript receives them: [created_at] is the text the session
    writes for the instant, or [null]. *)
Module Selected.
Record t := mk {
  id : string;
  amount : Z;
  created_at : option string;
}.
End Selected.

Definition selected (pg : Postgres.t) (r : DatabaseTransaction.t) : Selected.t :=
  Selected.mk (DatabaseTransaction.id r) (DatabaseTransaction.amount r)
    (Postgres.timestamptz_out pg <$> DatabaseTransaction.created_at r).

(** [ORDER BY created_at ASC]: [NULL] sorts last. *)
Definition created_at_leb (a b : option Z) : bool :=
  match a, b with
  | Some x, Some y => x <=? y
  | _, None => true
  | None, Some _ => false
  end.

(** [.from("transactions").select("id, amount, created_at")
    .eq("account_id", id).eq("type", ty).order("created_at",
    {ascending: true})] *)
Definition select_transactions (accountId ty : string)
    (pg : Postgres.t) (now : Z) (s : Store) : Store * Result.t (list Selected.t) :=
  let rows :=
    filter (λ r,
        bool_decide (DatabaseTransaction.account_id r = accountId)
        && bool_decide (DatabaseTransaction.type r = ty))
      (transactions s) in
  let ordered :=
    merge_sort (λ a b, created_at_leb (DatabaseTransaction.created_at a)
                                      (DatabaseTransaction.created_at b)) rows in
  (s, Result.mk (Some (selected pg <$> ordered)) None).

(** The rows such a query returns on a store. *)
Definition selection (accountId ty : string) (pg : Postgres.t) (now : Z) (s : Store)
    : option (list Selected.t) :=
  Result.data (select_transactions accountId ty pg now s).2.

(** *** The exported functions *)

Definition insertTransaction (transaction : Transaction.t) : Async unit :=
  await client := getSupabaseClient in
  let dbTransaction := DatabaseTransaction.mk
    (Transaction.id transaction) (Transaction.type transaction)
    (Transaction.amount transaction) (Transaction.accountId transaction)
    (Transaction.timestamp transaction) None in
  await r := call (insert_into_transactions dbTransaction) in
  match Result.error r with
  | Some error =>
      if bool_decide (PostgrestError.code error = "23505") then
        console_log LOG
          ("Transaction " +:+ Transaction.id transaction +:+ " already exists, skipping") [] ;;
        ret tt
      else
        throw (mkError ("Failed to insert transaction: " +:+ PostgrestError.message error))
  | None => ret tt
  end.

Definition getAccountBalance (accountId : string) : Async Z :=
  await client := getSupabaseClient in
  await r := call (select_balance accountId) in
  match Result.error r with
  | Some error =>
      if bool_decide (PostgrestError.code error = "PGRST116") then ret 0
      else throw (mkError ("Failed to get account balance: " +:+ PostgrestError.message error))
  | None =>
      (* [data?.balance || 0] *)
      ret (match Result.data r with
           | Some balance => if bool_decide (balance = 0) then 0 else balance
           | None => 0
           end)
  end.

Definition updateAccountBalance (accountId : string) (newBalance : Z) : Async unit :=
  await client := getSupabaseClient in
  await r := call (upsert_account accountId newBalance) in
  match Result.error r with
  | Some error =>
      throw (mkError ("Failed to update account balance: " +:+ PostgrestError.message error))
  | None => ret tt
  end.

Definition incrementAccountBalance (accountId : string) (amount : Z) : Async unit :=
  await client := getSupabaseClient in
  await currentBalance := getAccountBalance accountId in
  updateAccountBalance accountId (Number.add currentBalance amount).

Definition decrementAccountBalance (accountId : string) (amount : Z) : Async unit :=
  await client := getSupabaseClient in
  await currentBalance := getAccountBalance accountId in
  updateAccountBalance accountId (Number.sub currentBalance amount).

(** [a >= b] on two strings: the order of their code units, which for
    texts in ASCII is the order of their bytes. *)
Definition string_ge (a b : string) : bool := String.leb b a.

(** [w.created_at && request.created_at && w.created_at >=
    request.created_at], as a truth value: [null] and the empty string
    are falsy. *)
Definition at_or_after (w request : Selected.t) : bool :=
  truthy (Selected.created_at w)
  && truthy (Selected.created_at request)
  && match Selected.created_at w, Selected.created_at request with
     | Some tw, Some tr => string_ge tw tr
     | _, _ => false
     end.

(** The loop of [checkAndReserveBalanceFallback] over the two query
    results ([null] data is [None]). *)
Definition pendingAmount_of
    (withdrawRequests withdraws : option (list Selected.t)) : Z :=
  match withdrawRequests with
  | Some requests =>
      foldl (λ pendingAmount request,
          let hasCorrespondingWithdraw :=
            (λ ws, existsb (λ w, at_or_after w request) ws) <$> withdraws in
          (* [!undefined] is [true] *)
          if negb (default false hasCorrespondingWithdraw)
          then Number.add pendingAmount (Selected.amount request)
          else pendingAmount)
        0 requests
  | None => 0
  end.

Definition checkAndReserveBalanceFallback
    (accountId : string) (requestedAmount : Z) : Async bool :=
  await client := getSupabaseClient in
  await currentBalance := getAccountBalance accountId in
  await reqs := call (select_transactions accountId "withdraw_request") in
  match Result.error reqs with
  | Some reqError =>
      throw (mkError ("Failed to check pending withdraw requests: "
                      +:+ PostgrestError.message reqError))
  | None =>
      await wds := call (select_transactions accountId "withdraw") in
      match Result.error wds with
      | Some withdrawError =>
          throw (mkError ("Failed to check withdraws: "
                          +:+ PostgrestError.message withdrawError))
      | None =>
          let pendingAmount := pendingAmount_of (Result.data reqs) (Result.data wds) in
          let availableBalance := Number.sub currentBalance pendingAmount in
          ret (availableBalance >=? requestedAmount)
      end
  end.

Definition checkAndReserveBalance
    (accountId : string) (requestedAmount : Z) : Async bool :=
  await client := getSupabaseClient in
  await r := call (rpc_check_withdraw_request accountId requestedAmount) in
  match Result.error r with
  | Some error =>
      console_log WARN "RPC function not available, using fallback method:"
        [("message", JStr (PostgrestError.message error))] ;;
      checkAndReserveBalanceFallback accountId requestedAmount
  | None => ret (bool_decide (Result.data r = Some true))
  end.

(** ** [server.ts] *)

Inductive Body :=
  | NoBody                                                  (* [.end()] *)
  | InvalidType (message : string) (transaction : Transaction.t)
  | ServerError (message : string) (error : string)
  | Balance (accountId : string) (balance : Z).

Module Response.
Record t := mk {
  status : Z;
  body : Body;
}.
End Response.

(** [Promise.race([p, timeoutPromise])]: the promise [p] if it settles
    within the 3000 ms of the timer, the rejection [new Error("Timeout")]
    if it is still pending then. *)
Definition race_timeout {A} (p : Async A) : Async A :=
  λ w, match p w with
       | (w', Pending) => (w', Rejected (mkError "Timeout"))
       | r => r
       end.

Definition deposit_case (transaction : Transaction.t) : Async Response.t :=
  insertTransaction transaction ;;
  console_log LOG
    ("Transaction " +:+ Transaction.id transaction +:+ " inserted into log") [] ;;
  incrementAccountBalance (Transaction.accountId transaction) (Transaction.amount transaction) ;;
  await newBalance := getAccountBalance (Transaction.accountId transaction) in
  console_log LOG ("Deposit successful: " +:+ Transaction.id transaction)
    [("accountId", JStr (Transaction.accountId transaction));
     ("amount", JNum (Transaction.amount transaction));
     ("newBalance", JNum newBalance)] ;;
  ret (Response.mk 200 NoBody).

(** The [withdraw_request] case after the check has settled with
    [approved]: the balance is read for the log line, the request is
    inserted into the log on either branch, and the response is sent. *)
Definition answer_request (transaction : Transaction.t) (approved : bool)
    : Async Response.t :=
  await currentBalance := getAccountBalance (Transaction.accountId transaction) in
  if approved then
    insertTransaction transaction ;;
    console_log LOG ("Withdraw request APPROVED: " +:+ Transaction.id transaction)
      [("accountId", JStr (Transaction.accountId transaction));
       ("requestedAmount", JNum (Transaction.amount transaction));
       ("currentBalance", JNum currentBalance)] ;;
    ret (Response.mk 201 NoBody)
  else
    insertTransaction transaction ;;
    console_log LOG ("Withdraw request DENIED: " +:+ Transaction.id transaction)
      [("accountId", JStr (Transaction.accountId transaction));
       ("requestedAmount", JNum (Transaction.amount transaction));
       ("currentBalance", JNum currentBalance);
       ("reason", JStr "Insufficient balance")] ;;
    ret (Response.mk 402 NoBody).

(** The inner [catch] block: a timeout is answered 402, any other error
    is thrown again. *)
Definition on_check_error (transaction : Transaction.t) (error : Error)
    : Async Response.t :=
  if bool_decide (message error = "Timeout") then
    console_log WARN ("Withdraw request TIMEOUT: " +:+ Transaction.id transaction)
      [("accountId", JStr (Transaction.accountId transaction));
       ("requestedAmount", JNum (Transaction.amount transaction))] ;;
    ret (Response.mk 402 NoBody)
  else throw error.

Definition withdraw_request_case (transaction : Transaction.t) : Async Response.t :=
  try_catch
    (console_log LOG ("Checking withdraw_request: " +:+ Transaction.id transaction)
       [("accountId", JStr (Transaction.accountId transaction));
        ("requestedAmount", JNum (Transaction.amount transaction))] ;;
     await approved :=
       race_timeout
         (checkAndReserveBalance (Transaction.accountId transaction)
            (Transaction.amount transaction)) in
     answer_request transaction approved)
    (on_check_error transaction).

Definition withdraw_case (transaction : Transaction.t) : Async Response.t :=
  insertTransaction transaction ;;
  console_log LOG
    ("Transaction " +:+ Transaction.id transaction +:+ " inserted into log") [] ;;
  decrementAccountBalance (Transaction.accountId transaction) (Transaction.amount transaction) ;;
  await newBalance := getAccountBalance (Transaction.accountId transaction) in
  console_log LOG ("Withdraw successful: " +:+ Transaction.id transaction)
    [("accountId", JStr (Transaction.accountId transaction));
     ("amount", JNum (Transaction.amount transaction));
     ("newBalance", JNum newBalance)] ;;
  ret (Response.mk 200 NoBody).

(** The [catch] block of the handler. *)
Definition internal_server_error (transaction : Transaction.t) (error : Error)
    : Async Response.t :=
  console_log ERROR
    ("Error processing transaction " +:+ Transaction.id transaction +:+ ":")
    [("transactionId", JStr (Transaction.id transaction));
     ("type", JStr (Transaction.type transaction));
     ("accountId", JStr (Transaction.accountId transaction));
     ("error", JStr (message error))] ;;
  ret (Response.mk 500 (ServerError "Internal server error" (message error))).

(** The [switch] on the type. *)
Definition switch_type (transaction : Transaction.t) : Async Response.t :=
  if bool_decide (Transaction.type transaction = "deposit") then
    deposit_case transaction
  else if bool_decide (Transaction.type transaction = "withdraw_request") then
    withdraw_request_case transaction
  else if bool_decide (Transaction.type transaction = "withdraw") then
    withdraw_case transaction
  else
    console_log WARN ("Invalid transaction type: " +:+ Transaction.type transaction)
      [("transactionId", JStr (Transaction.id transaction));
       ("accountId", JStr (Transaction.accountId transaction))] ;;
    ret (Response.mk 400 (InvalidType "Invalid transaction type" transaction)).

(** [app.post("/transaction", ...)] *)
Definition post_transaction (transaction : Transaction.t) : Async Response.t :=
  try_catch
    (console_log LOG ("Processing transaction: " +:+ Transaction.id transaction)
       [("type", JStr (Transaction.type transaction));
        ("accountId", JStr (Transaction.accountId transaction));
        ("amount", JNum (Transaction.amount transaction))] ;;
     switch_type transaction)
    (internal_server_error transaction).

(** [app.get("/account/:accountId", ...)] *)
Definition get_account (accountId : string) : Async Response.t :=
  try_catch
    (await balance := getAccountBalance accountId in
     console_log LOG ("Balance retrieved for account: " +:+ accountId)
       [("accountId", JStr accountId); ("balance", JNum balance)] ;;
     ret (Response.mk 200 (Balance accountId balance)))
    (λ error,
       console_log ERROR ("Error getting account balance for " +:+ accountId +:+ ":")
         [("accountId", JStr accountId); ("error", JStr (message error))] ;;
       ret (Response.mk 500 (ServerError "Internal server error" (message error)))).

(** [const PORT = process.env.PORT || 3000; app.listen(PORT, ...)]: the
    program starts listening and prints its configuration.  Nothing on
    this path reads the store credentials other than to print whether
    they are set. *)
Definition configured (v : option string) : string :=
  if truthy v then "Configured" else "NOT SET".

Definition listen : Async string :=
  λ w,
    let PORT := if truthy (process.PORT (env w))
                then default "" (process.PORT (env w)) else "3000" in
    (console_log LOG "==================================================" [] ;;
     console_log LOG "Server started successfully" [] ;;
     console_log LOG ("Port: " +:+ PORT) [] ;;
     console_log LOG
       ("Environment: " +:+
        (if truthy (process.NODE_ENV (env w))
         then default "" (process.NODE_ENV (env w)) else "development")) [] ;;
     console_log LOG
       ("Supabase URL: " +:+ configured (process.SUPABASE_URL (env w))) [] ;;
     console_log LOG
       ("Supabase Key: " +:+ configured (process.SUPABASE_SERVICE_ROLE_KEY (env w))) [] ;;
     console_log LOG "Timestamp:" [("now", JNum (now w))] ;;
     console_log LOG "==================================================" [] ;;
     ret PORT) w.

(** ** Running requests *)

Definition configured_env : process.env :=
  process.mk (Some "https://project.supabase.co") (Some "service-role-key") None None.

(** *** A session at a fixed offset from UTC

    The output routine writes an instant, counted in microseconds from
    1970-01-01T00:00:00Z, in the ISO 8601 form PostgreSQL hands to a JSON
    client: the local date and time at the offset of the session,
    fractional seconds without trailing zeros, and the offset (years
    0001 to 9999).  Of the input routine the one form the requests of
    this development use is written out, [YYYY-MM-DDThh:mm:ssZ] with
    every field in its range; any other text is taken as unreadable. *)

Module Iso8601.

Definition digit (n : Z) : string :=
  String (Ascii.ascii_of_N (48 + Z.to_N (n mod 10))) EmptyString.

Fixpoint decimal (width : nat) (n : Z) : string :=
  match width with
  | O => ""
  | S k => decimal k (n / 10) +:+ digit n
  end.

Definition leap (y : Z) : bool :=
  (y mod 4 =? 0) && (negb (y mod 100 =? 0) || (y mod 400 =? 0)).

Definition days_in_month (y m : Z) : Z :=
  if m =? 2 then (if leap y then 29 else 28)
  else if (m =? 4) || (m =? 6) || (m =? 9) || (m =? 11) then 30
  else 31.

(** The date of a day counted from 1970-01-01. *)
Definition civil (days : Z) : Z * Z * Z :=
  let z := days + 719468 in
  let era := z / 146097 in
  let doe := z - era * 146097 in
  let yoe := (doe - doe / 1460 + doe / 36524 - doe / 146096) / 365 in
  let doy := doe - (365 * yoe + yoe / 4 - yoe / 100) in
  let mp := (5 * doy + 2) / 153 in
  let d := doy - (153 * mp + 2) / 5 + 1 in
  let m := if mp <? 10 then mp + 3 else mp - 9 in
  (yoe + era * 400 + (if m <=? 2 then 1 else 0), m, d).

(** The digits of [micros] out of [10 ^ width], up to the last one that
    is not zero. *)
Fixpoint fraction (width : nat) (micros : Z) : string :=
  match width with
  | O => ""
  | S k =>
      if micros =? 0 then ""
      else digit (micros / 10 ^ Z.of_nat k) +:+ fraction k (micros mod 10 ^ Z.of_nat k)
  end.

Definition offset_text (minutes : Z) : string :=
  (if minutes <? 0 then "-" else "+")
  +:+ decimal 2 (Z.abs minutes / 60) +:+ ":" +:+ decimal 2 (Z.abs minutes mod 60).

Definition text (offset : Z) (instant : Z) : string :=
  let local := instant + offset * 60000000 in
  let '(y, m, d) := civil (local / 86400000000) in
  let seconds := local mod 86400000000 / 1000000 in
  let micros := local mod 1000000 in
  decimal 4 y +:+ "-" +:+ decimal 2 m +:+ "-" +:+ decimal 2 d +:+ "T"
  +:+ decimal 2 (seconds / 3600) +:+ ":" +:+ decimal 2 (seconds / 60 mod 60)
  +:+ ":" +:+ decimal 2 (seconds mod 60)
  +:+ (if micros =? 0 then "" else "." +:+ fraction 6 micros)
  +:+ offset_text offset.

Definition is_digit (c : Ascii.ascii) : bool :=
  ((48 <=? Ascii.N_of_ascii c) && (Ascii.N_of_ascii c <=? 57))%N.

Definition number (cs : list Ascii.ascii) : Z :=
  foldl (λ n c, 10 * n + (Z.of_N (Ascii.N_of_ascii c) - 48)) 0 cs.

Definition reads (s : string) : bool :=
  match String.list_ascii_of_string s with
  | [y1; y2; y3; y4; c1; m1; m2; c2; d1; d2; c3; h1; h2; c4; n1; n2; c5; s1; s2; c6] =>
      forallb is_digit [y1; y2; y3; y4; m1; m2; d1; d2; h1; h2; n1; n2; s1; s2]
      && bool_decide (String.string_of_list_ascii [c1; c2; c3; c4; c5; c6] = "--T::Z")
      && (1 <=? number [y1; y2; y3; y4])
      && (1 <=? number [m1; m2]) && (number [m1; m2] <=? 12)
      && (1 <=? number [d1; d2])
      && (number [d1; d2] <=? days_in_month (number [y1; y2; y3; y4]) (number [m1; m2]))
      && (number [h1; h2] <=? 23) && (number [n1; n2] <=? 59) && (number [s1; s2] <=? 59)
  | _ => false
  end.

End Iso8601.

(** A session whose time zone is UTC. *)
Definition utc : Postgres.t := Postgres.mk Iso8601.reads (Iso8601.text 0).

(** A freshly started process in front of an empty database, the
    session in UTC. *)
Definition boot (e : process.env) : World :=
  mkWorld e None (mkStore [] ∅) utc 0 [] [].

Definition at_time (t : Z) (w : World) : World :=
  mkWorld (env w) (supabase w) (store w) (postgres w) t (script w) (console w).

Definition with_script (rs : list Reply) (w : World) : World := set_script rs w.

(** The balance an account has in the store (0 without a row). *)
Definition balance_in (s : Store) (accountId : string) : Z :=
  match accounts s !! accountId with
  | Some a => Account.balance a
  | None => 0
  end.

Definition balance_of (w : World) (accountId : string) : Z :=
  balance_in (store w) accountId.

(** The ids of the log, in insertion order. *)
Definition log_ids (w : World) : list string :=
  DatabaseTransaction.id <$> transactions (store w).

Definition status_of (r : World * Promise Response.t) : option Z :=
  match r.2 with
  | Fulfilled resp => Some (Response.status resp)
  | _ => None
  end.

(** ** Requests in flight at the same time

    Between two [await]s a handler runs alone; at an [await] the
    handlers of other requests may run.  A balance mutation of [db.ts]
    awaits twice: [getAccountBalance], then [updateAccountBalance] with
    the value computed from what the first returned. *)

Inductive Mutation := Increment | Decrement.

Definition mutate (op : Mutation) : string → Z → Async unit :=
  match op with
  | Increment => incrementAccountBalance
  | Decrement => decrementAccountBalance
  end.

Definition new_balance (op : Mutation) (currentBalance amount : Z) : Z :=
  match op with
  | Increment => Number.add currentBalance amount
  | Decrement => Number.sub currentBalance amount
  end.

(** A call of [incrementAccountBalance] or [decrementAccountBalance]:
    not yet past its first [await], holding the balance it is about to
    write, or settled. *)
Inductive Task :=
  | Called (op : Mutation) (accountId : string) (amount : Z)
  | Holding (accountId : string) (newBalance : Z)
  | Settled (p : Promise unit).

(** Run a task up to its next [await]. *)
Definition resume (t : Task) (w : World) : World * Task :=
  match t with
  | Called op accountId amount =>
      match (getSupabaseClient ;; getAccountBalance accountId) w with
      | (w', Fulfilled currentBalance) =>
          (w', Holding accountId (new_balance op currentBalance amount))
      | (w', Rejected e) => (w', Settled (Rejected e))
      | (w', Pending) => (w', Settled Pending)
      end
  | Holding accountId newBalance =>
      let '(w', p) := updateAccountBalance accountId newBalance w in
      (w', Settled p)
  | Settled p => (w, Settled p)
  end.

(** Run the tasks in the order of a schedule: each entry names the task
    that runs next, up to its next [await]. *)
Fixpoint interleave (schedule : list nat) (tasks : list Task) (w : World)
    : World * list Task :=
  match schedule with
  | [] => (w, tasks)
  | i :: schedule =>
      match tasks !! i with
      | Some t =>
          let '(w', t') := resume t w in
          interleave schedule (<[i := t']> tasks) w'
      | None => interleave schedule tasks w
      end
  end.

(** ** The pending amount in the words of the specification *)

Module Spec.

(** [a] is at or after [b]; no instant compares with a missing one. *)
Definition at_or_after (a b : option Z) : Prop :=
  match a, b with
  | Some x, Some y => y ≤ x
  | _, _ => False
  end.

(** A withdraw [w] resolves the request [r]: same account, and
    [created_at] greater than or equal to the request's. *)
Definition resolves (w r : DatabaseTransaction.t) : Prop :=
  DatabaseTransaction.type w = "withdraw"
  ∧ DatabaseTransaction.account_id w = DatabaseTransaction.account_id r
  ∧ at_or_after (DatabaseTransaction.created_at w) (DatabaseTransaction.created_at r).

(** A pending (unresolved) withdraw_request of the account: no
    withdraw of the log resolves it. *)
Definition pending (rows : list DatabaseTransaction.t) (accountId : string)
    (r : DatabaseTransaction.t) : Prop :=
  DatabaseTransaction.type r = "withdraw_request"
  ∧ DatabaseTransaction.account_id r = accountId
  ∧ ¬ Exists (λ w, resolves w r) rows.

Global Instance at_or_after_dec a b : Decision (at_or_after a b).
Proof. destruct a, b; simpl; apply _. Defined.
Global Instance resolves_dec w r : Decision (resolves w r).
Proof. unfold resolves. apply _. Defined.
Global Instance pending_dec rows accountId r : Decision (pending rows accountId r).
Proof. unfold pending. apply _. Defined.

(** P: the sum of the pending withdraw_requests of the account. *)
Definition pending_total (rows : list DatabaseTransaction.t) (accountId : string) : Z :=
  foldr Z.add 0 (DatabaseTransaction.amount <$> filter (pending rows accountId) rows).

(** [B - P >= A] *)
Definition covers (s : Store) (accountId : string) (requested : Z) : Prop :=
  balance_in s accountId - pending_total (transactions s) accountId >= requested.

Global Instance covers_dec s accountId requested :
  Decision (covers s accountId requested).
Proof. unfold covers. apply Z_ge_dec. Defined.

End Spec.

(** ** Worlds in which the store is reachable *)

Definition credentials_set (w : World) : bool :=
  match supabase w with
  | Some _ => true
  | None =>
      truthy (process.SUPABASE_URL (env w))
      && truthy (process.SUPABASE_SERVICE_ROLE_KEY (env w))
  end.

(** The client [getSupabaseClient] returns in such a world. *)
Definition client_of (w : World) : SupabaseClient :=
  match supabase w with
  | Some c => c
  | None =>
      createClient (default "" (process.SUPABASE_URL (env w)))
        (default "" (process.SUPABASE_SERVICE_ROLE_KEY (env w)))
  end.

(** The credentials are set and the store answers every call. *)
Definition ready (w : World) : Prop :=
  credentials_set w = true ∧ script w = [].

(** The world [w] in the course of a request: the client is
    initialised, the store still has the replies [rs] to give, it holds
    [s], and the console holds [c]. *)
Definition during (w : World) (rs : list Reply) (s : Store) (c : list LogEntry)
    : World :=
  mkWorld (env w) (Some (client_of w)) s (postgres w) (now w) rs c.

(** The same once the script is exhausted: every further call is
    answered. *)
Abbreviation after w s c := (during w [] s c).

(** The session reads the text of the transaction's [timestamp]. *)
Definition accepted (w : World) (t : Transaction.t) : Prop :=
  Postgres.timestamptz_in (postgres w) (Transaction.timestamp t) = true.

Global Instance accepted_dec w t : Decision (accepted w t).
Proof. unfold accepted. apply _. Defined.

(** The message with which [insertTransaction] throws when it does
    not. *)
Definition unreadable_timestamp (t : Transaction.t) : string :=
  "Failed to insert transaction: invalid input syntax for type timestamp with time zone: "
  +:+ quoted (Transaction.timestamp t).

(** ** When the fallback computes what the database function computes *)

(** The rows of an account and the instants at which rows were
    inserted. *)
Definition rows_of (accountId : string) (rows : list DatabaseTransaction.t)
    : list DatabaseTransaction.t :=
  filter (λ r, DatabaseTransaction.account_id r = accountId) rows.

Definition instants (rows : list DatabaseTransaction.t) : list Z :=
  omap DatabaseTransaction.created_at rows.

(** The texts the session writes for the instants [ts] are not empty
    and sort, as strings, the way the instants do. *)
Definition sorts_as_instants (pg : Postgres.t) (ts : list Z) : Prop :=
  Forall (λ x,
      Postgres.timestamptz_out pg x ≠ ""
      ∧ Forall (λ y,
            string_ge (Postgres.timestamptz_out pg x) (Postgres.timestamptz_out pg y)
            = (x >=? y)) ts) ts.

(** The amounts of the pending requests of the account add up without
    rounding, in whatever order: their absolute values sum to [2^53] at
    most. *)
Definition adds_exactly (rows : list DatabaseTransaction.t) (accountId : string)
    : Prop :=
  foldr Z.add 0 (Z.abs <$> (DatabaseTransaction.amount <$>
                            filter (Spec.pending rows accountId) rows)) ≤ 2 ^ 53.

(** On the store [s] JavaScript computes the pending amount and the
    available balance of the account as exact arithmetic does. *)
Definition computes_exactly (pg : Postgres.t) (s : Store) (accountId : string)
    : Prop :=
  sorts_as_instants pg (instants (rows_of accountId (transactions s)))
  ∧ adds_exactly (transactions s) accountId
  ∧ Number.safe (balance_in s accountId
                 - Spec.pending_total (transactions s) accountId).

Global Instance sorts_as_instants_dec pg ts : Decision (sorts_as_instants pg ts).
Proof. unfold sorts_as_instants. apply _. Defined.
Global Instance adds_exactly_dec rows accountId : Decision (adds_exactly rows accountId).
Proof. unfold adds_exactly. apply _. Defined.
Global Instance computes_exactly_dec pg s accountId :
  Decision (computes_exactly pg s accountId).
Proof. unfold computes_exactly. apply _. Defined.

(** The pending amount and the decision of the fallback when its reads
    are answered on the store [s]. *)
Definition fallback_pending (pg : Postgres.t) (now : Z) (s : Store)
    (accountId : string) : Z :=
  pendingAmount_of (selection accountId "withdraw_request" pg now s)
                   (selection accountId "withdraw" pg now s).

Definition fallback_approves (pg : Postgres.t) (now : Z) (s : Store)
    (accountId : string) (requested : Z) : bool :=
  Number.sub (balance_in s accountId) (fallback_pending pg now s accountId)
  >=? requested.

(** The row the store holds for a transaction inserted at time [now]. *)
Definition stored (t : Transaction.t) (now : Z) : DatabaseTransaction.t :=
  DatabaseTransaction.mk
    (Transaction.id t) (Transaction.type t) (Transaction.amount t)
    (Transaction.accountId t) (Transaction.timestamp t) (Some now).

Definition with_balance (accountId : string) (b : Z) (now : Z) (s : Store) : Store :=
  mkStore (transactions s) (<[accountId := Account.mk b (Some now)]> (accounts s)).

Definition with_row (r : DatabaseTransaction.t) (s : Store) : Store :=
  mkStore (transactions s ++ [r]) (accounts s).

(** What a deposit or a withdraw leaves behind when every call is
    answered: the response, the log and the balances. *)
Definition applied (op : Mutation) (t : Transaction.t) (w : World)
    (r : World * Promise Response.t) : Prop :=
  r.2 = Fulfilled (Response.mk 200 NoBody)
  ∧ balance_of r.1 (Transaction.accountId t)
    = new_balance op (balance_of w (Transaction.accountId t)) (Transaction.amount t)
  ∧ (∀ a, a ≠ Transaction.accountId t → balance_of r.1 a = balance_of w a)
  ∧ Transaction.id t ∈ log_ids r.1
  ∧ (Transaction.id t ∉ log_ids w →
     transactions (store r.1) = (transactions (store w) ++ [stored t (now w)])%list)
  ∧ (Transaction.id t ∈ log_ids w →
     transactions (store r.1) = transactions (store w)).

(** What a withdraw_request leaves behind when every call is answered:
    the response is the decision [B - P >= A], no balance moves, and the
    request is in the log. *)
Definition decided (t : Transaction.t) (w : World)
    (r : World * Promise Response.t) : Prop :=
  r.2 = Fulfilled (Response.mk
          (if decide (Spec.covers (store w) (Transaction.accountId t)
                        (Transaction.amount t))
           then 201 else 402) NoBody)
  ∧ (∀ a, balance_of r.1 a = balance_of w a)
  ∧ Transaction.id t ∈ log_ids r.1
  ∧ (Transaction.id t ∉ log_ids w →
     transactions (store r.1) = (transactions (store w) ++ [stored t (now w)])%list)
  ∧ (Transaction.id t ∈ log_ids w →
     transactions (store r.1) = transactions (store w)).

(** What a request whose timestamp the session cannot read leaves
    behind when every call is answered, in either server: the response
    with the cause, the log and the balances as they were. *)
Definition unread (t : Transaction.t) (w : World)
    (r : World * Promise Response.t) : Prop :=
  r.2 = Fulfilled (Response.mk 500
          (ServerError "Internal server error" (unreadable_timestamp t)))
  ∧ transactions (store r.1) = transactions (store w)
  ∧ ∀ a, balance_of r.1 a = balance_of w a.

(** ** Sample requests and worlds *)

Definition sample (id ty : string) (amount : Z) : Transaction.t :=
  Transaction.mk id ty amount "acc1" "2024-01-01T00:00:00Z".

(** The world after the deposit [t1] of 100 on the new account [acc1]. *)
Definition funded : World :=
  (post_transaction (sample "t1" "deposit" 100) (at_time 1 (boot configured_env))).1.

(** A process started without the store credentials. *)
Definition unconfigured_env : process.env := process.mk None None None None.

(** The configuration lines the program prints when it starts. *)
Definition url_line (w : World) : LogEntry :=
  mkLog LOG ("Supabase URL: " +:+ configured (process.SUPABASE_URL (env w))) [].
Definition key_line (w : World) : LogEntry :=
  mkLog LOG
    ("Supabase Key: " +:+ configured (process.SUPABASE_SERVICE_ROLE_KEY (env w))) [].

(** The warning [checkAndReserveBalance] prints when the RPC hands back
    an error. *)
Definition rpc_warning (msg : string) : LogEntry :=
  mkLog WARN "RPC function not available, using fallback method:"
    [("message", JStr msg)].

(** The three messages with which the fallback throws. *)
Definition fallback_prefix (n : nat) : string :=
  match n with
  | O => "Failed to get account balance: "
  | S O => "Failed to check pending withdraw requests: "
  | _ => "Failed to check withdraws: "
  end.

(** What a deposit or a withdraw can leave behind whatever the store
    answers: the log is as it was or longer by the stored transaction;
    the balances are as they were, or the account's balance has moved by
    the full amount with the transaction's id in the log. *)
Definition log_step (t : Transaction.t) (w w' : World) : Prop :=
  transactions (store w') = transactions (store w)
  ∨ transactions (store w') = (transactions (store w) ++ [stored t (now w)])%list.

Definition balance_step (op : Mutation) (t : Transaction.t) (w w' : World) : Prop :=
  (∀ a, balance_of w' a = balance_of w a)
  ∨ (Transaction.id t ∈ log_ids w'
     ∧ balance_of w' (Transaction.accountId t)
       = new_balance op (balance_of w (Transaction.accountId t)) (Transaction.amount t)
     ∧ ∀ a, a ≠ Transaction.accountId t → balance_of w' a = balance_of w a).

(** [sat m w Q]: running [m] in the world [w] ends in a world and a
    promise that satisfy [Q]. *)
Definition sat {A} (m : Async A) (w : World) (Q : World → Promise A → Prop) : Prop :=
  Q (m w).1 (m w).2.

(** The store is lost after the first call of a request: the insert is
    answered, the read of the balance is not. *)
Definition store_lost_after_insert : World :=
  with_script [Answers; Fails connection_failure "connection lost"]
    (at_time 1 (boot configured_env)).

(** The RPC [check_withdraw_request] is not installed; the tables
    answer. *)
Definition rpc_missing : World :=
  with_script [Fails undefined_function "function check_withdraw_request not found"]
    (at_time 2 funded).

(** ** The server without log lines

    The same two routes as they are written without the log lines: no
    balance is read back after a deposit or a withdraw or before a
    withdraw_request is inserted. *)

Module Plain.

Definition deposit_case (transaction : Transaction.t) : Async Response.t :=
  insertTransaction transaction ;;
  incrementAccountBalance (Transaction.accountId transaction) (Transaction.amount transaction) ;;
  ret (Response.mk 200 NoBody).

Definition withdraw_request_case (transaction : Transaction.t) : Async Response.t :=
  try_catch
    (await approved :=
       race_timeout
         (checkAndReserveBalance (Transaction.accountId transaction)
            (Transaction.amount transaction)) in
     if approved : bool then
       insertTransaction transaction ;;
       ret (Response.mk 201 NoBody)
     else
       insertTransaction transaction ;;
       ret (Response.mk 402 NoBody))
    (λ error,
       if bool_decide (message error = "Timeout") then ret (Response.mk 402 NoBody)
       else throw error).

Definition withdraw_case (transaction : Transaction.t) : Async Response.t :=
  insertTransaction transaction ;;
  decrementAccountBalance (Transaction.accountId transaction) (Transaction.amount transaction) ;;
  ret (Response.mk 200 NoBody).

Definition switch_type (transaction : Transaction.t) : Async Response.t :=
  if bool_decide (Transaction.type transaction = "deposit") then
    deposit_case transaction
  else if bool_decide (Transaction.type transaction = "withdraw_request") then
    withdraw_request_case transaction
  else if bool_decide (Transaction.type transaction = "withdraw") then
    withdraw_case transaction
  else
    ret (Response.mk 400 (InvalidType "Invalid transaction type" transaction)).

Definition post_transaction (transaction : Transaction.t) : Async Response.t :=
  try_catch
    (switch_type transaction)
    (λ error,
       console_log ERROR "Error processing transaction:"
         [("error", JStr (message error))] ;;
       ret (Response.mk 500 (ServerError "Internal server error" (message error)))).

Definition get_account (accountId : string) : Async Response.t :=
  try_catch
    (await balance := getAccountBalance accountId in
     ret (Response.mk 200 (Balance accountId balance)))
    (λ error,
       console_log ERROR "Error getting account balance:"
         [("error", JStr (message error))] ;;
       ret (Response.mk 500 (ServerError "Internal server error" (message error)))).

End Plain.

(** ** Requests one after the other *)

(** Each request is handled to its end, at the given time of the clock,
    before the next one arrives. *)
Definition run_requests (requests : list (Z * Transaction.t)) (w : World) : World :=
  foldl (λ w request, (post_transaction request.2 (at_time request.1 w)).1) w requests.

(** The log after a request: as it was, or longer by the stored
    transaction, whose type the table accepts and whose id was not in
    the log. *)
Definition log_extends (t : Transaction.t) (w w' : World) : Prop :=
  transactions (store w') = transactions (store w)
  ∨ ((Transaction.id t ∉ log_ids w)
     ∧ valid_type (Transaction.type t) = true
     ∧ transactions (store w') = (transactions (store w) ++ [stored t (now w)])%list).

(** A step that leaves the clock, the log and every balance alone. *)
Definition quiet (w w' : World) : Prop :=
  now w' = now w
  ∧ transactions (store w') = transactions (store w)
  ∧ ∀ a, balance_of w' a = balance_of w a.

(** The promise of a handler: still pending, or a response whose status
    is one of [allowed]; never a rejection. *)
Definition answers (allowed : list Z) (p : Promise Response.t) : Prop :=
  match p with
  | Fulfilled resp => Response.status resp ∈ allowed
  | Rejected _ => False
  | Pending => True
  end.

(** The statuses the handler can send for a transaction of a type. *)
Definition statuses_of (ty : string) : list Z :=
  if bool_decide (ty = "deposit") then [200; 500]
  else if bool_decide (ty = "withdraw_request") then [201; 402; 500]
  else if bool_decide (ty = "withdraw") then [200; 500]
  else [400].

(** Every row carries a type of the table and a time of insertion. *)
Definition well_formed_row (r : DatabaseTransaction.t) : Prop :=
  valid_type (DatabaseTransaction.type r) = true
  ∧ is_Some (DatabaseTransaction.created_at r).

(** No row of the log was inserted later than [time]. *)
Definition not_after (time : Z) (rows : list DatabaseTransaction.t) : Prop :=
  Forall (λ r, ∀ tr, DatabaseTransaction.created_at r = Some tr → tr ≤ time) rows.

(** Every row of the log was inserted before [time]. *)
Definition before (time : Z) (rows : list DatabaseTransaction.t) : Prop :=
  Forall (λ r, ∀ tr, DatabaseTransaction.created_at r = Some tr → tr < time) rows.

Definition with_env (e : process.env) (w : World) : World :=
  mkWorld e (supabase w) (store w) (postgres w) (now w) (script w) (console w).

(** What a handled transaction does to the balance [b] of
    [accountId]: a deposit on the account adds its amount and a withdraw
    on it subtracts it, as JavaScript adds and subtracts, when the
    session reads the timestamp of the transaction; every other
    transaction leaves the balance alone. *)
Definition moved (pg : Postgres.t) (accountId : string) (b : Z) (t : Transaction.t)
    : Z :=
  if bool_decide (Transaction.accountId t = accountId)
     && Postgres.timestamptz_in pg (Transaction.timestamp t) then
    if bool_decide (Transaction.type t = "deposit") then
      Number.add b (Transaction.amount t)
    else if bool_decide (Transaction.type t = "withdraw") then
      Number.sub b (Transaction.amount t)
    else b
  else b.

(** The same as an amount to add in exact arithmetic. *)
Definition effect_on (pg : Postgres.t) (accountId : string) (t : Transaction.t) : Z :=
  if bool_decide (Transaction.accountId t = accountId)
     && Postgres.timestamptz_in pg (Transaction.timestamp t) then
    if bool_decide (Transaction.type t = "deposit") then Transaction.amount t
    else if bool_decide (Transaction.type t = "withdraw") then - Transaction.amount t
    else 0
  else 0.

(** A function of the program that leaves a ready world ready, in the
    same session. *)
Definition keeps {A} (m : Async A) : Prop :=
  ∀ w, ready w → ready (m w).1 ∧ postgres (m w).1 = postgres w.

(** Starting from [b], every partial sum of the effects stays among the
    whole numbers that JavaScript adds exactly. *)
Fixpoint stays_safe (b : Z) (effects : list Z) : Prop :=
  match effects with
  | [] => True
  | e :: effects => Number.safe (b + e) ∧ stays_safe (b + e) effects
  end.

(** The store is lost after the balance was written: the insert and the
    two calls of the mutation are answered, the read for the log line is
    not. *)
Definition store_lost_after_write : World :=
  with_script
    [Answers; Answers; Answers; Fails connection_failure "connection lost"]
    (at_time 1 (boot configured_env)).

(** The six orders in which two calls of a balance mutation, of two
    steps each, can run: the two in which one call ends before the other
    begins, and the four in which they overlap. *)
Definition in_turn : list (list nat) :=
  [[0; 0; 1; 1]; [1; 1; 0; 0]]%nat.
Definition overlapping : list (list nat) :=
  [[0; 1; 0; 1]; [0; 1; 1; 0]; [1; 0; 0; 1]; [1; 0; 1; 0]]%nat.

(** ** Further sample requests and worlds *)

(** A request whose [timestamp] is no timestamp. *)
Definition unreadable (id ty : string) (amount : Z) : Transaction.t :=
  Transaction.mk id ty amount "acc1" "not a timestamp".

(** The world after the deposit [t1] of [amount] on the new account
    [acc1]. *)
Definition funded_with (amount : Z) : World :=
  (post_transaction (sample "t1" "deposit" amount) (at_time 1 (boot configured_env))).1.

(** The account [acc1] overdrawn: after the deposit of 100, the
    withdraw [t4] of 160. *)
Definition overdrawn : World :=
  (post_transaction (sample "t4" "withdraw" 160) (at_time 2 funded)).1.

(** The account [acc1] with as much pending as it holds: a deposit of
    [2^53 + 2], then requests for [2^53], 1 and 1, each approved. *)
Definition reserved_in_full : World :=
  run_requests
    [(1, sample "d1" "deposit" (2 ^ 53 + 2));
     (2, sample "r1" "withdraw_request" (2 ^ 53));
     (3, sample "r2" "withdraw_request" 1);
     (4, sample "r3" "withdraw_request" 1)]
    (boot configured_env).

(** The same world when the RPC is not installed. *)
Definition reserved_in_full_without_rpc : World :=
  with_script [Fails undefined_function "function check_withdraw_request not found"]
    (at_time 5 reserved_in_full).

(** A session in a time zone that sets its clocks back: four hours
    behind UTC before 2024-11-03T06:00:00Z, five hours behind from then
    on. *)
Definition clocks_set_back : Z := 1730613600000000.

Definition eastern : Postgres.t :=
  Postgres.mk Iso8601.reads
    (λ instant,
       Iso8601.text (if instant <? clocks_set_back then -240 else -300) instant).

Definition in_session (pg : Postgres.t) (w : World) : World :=
  mkWorld (env w) (supabase w) (store w) pg (now w) (script w) (console w).

(** In that session: a deposit of 100, a request for 60 half an hour
    before the clocks are set back, and the withdraw of the 60 at the
    moment they are. *)
Definition over_the_change : World :=
  run_requests
    [(clocks_set_back - 3600000000, sample "t1" "deposit" 100);
     (clocks_set_back - 1800000000, sample "t2" "withdraw_request" 60);
     (clocks_set_back, sample "t3" "withdraw" 60)]
    (in_session eastern (boot configured_env)).

(** * Properties *)

(** ** The pending amount: the database function, the fallback loop and
       the specification agree *)

Section pending_amount.

Implicit Types (rows : list DatabaseTransaction.t) (accountId : string).

Lemma total_Permutation (xs ys : list Z) :
  xs ≡ₚ ys → foldr Z.add 0 xs = foldr Z.add 0 ys.
Proof.
  induction 1 as [|x xs ys _ IH|x y xs|xs ys zs _ IH1 _ IH2]; simpl; lia.
Qed.

Lemma coalesce_sum (xs : list Z) :
  Sql.coalesce (Sql.sum xs) 0 = foldr Z.add 0 xs.
Proof. by destruct xs. Qed.

Lemma holds_ge_at_or_after (a b : option Z) :
  Sql.holds (Sql.ge a b) = true ↔ Spec.at_or_after a b.
Proof.
  destruct a as [x|], b as [y|]; simpl; try (split; [discriminate|tauto]).
  destruct (x >=? y) eqn:E; split; try done; lia.
Qed.

Lemma existsb_Exists {A} (f : A → bool) (l : list A) :
  existsb f l = true ↔ Exists (λ x, f x = true) l.
Proof.
  induction l as [|x l IH]; simpl.
  - split; [discriminate | by inversion 1].
  - rewrite orb_true_iff, Exists_cons, IH. tauto.
Qed.

Lemma exists_withdraw_resolves rows (t : DatabaseTransaction.t) :
  Sql.exists_withdraw_at_or_after rows t = true
  ↔ Exists (λ w, Spec.resolves w t) rows.
Proof.
  unfold Sql.exists_withdraw_at_or_after. rewrite existsb_Exists.
  apply Exists_proper; [|done]. intros w. unfold Spec.resolves.
  rewrite !andb_true_iff, !bool_decide_eq_true, holds_ge_at_or_after. tauto.
Qed.

Lemma sql_pending_amount_spec rows accountId :
  Sql.pending_amount rows accountId = Spec.pending_total rows accountId.
Proof.
  unfold Sql.pending_amount, Spec.pending_total. rewrite coalesce_sum.
  f_equal. f_equal. apply list_filter_iff. intros t. unfold Spec.pending.
  rewrite <- exists_withdraw_resolves.
  rewrite !andb_True, !bool_decide_spec, negb_True, Is_true_true. tauto.
Qed.

(** Among the safe whole numbers JavaScript's arithmetic is exact. *)
Lemma round_safe (z : Z) : Number.safe z → Number.round z = z.
Proof.
  unfold Number.safe, Number.round. intros Hz.
  destruct (Z.abs z <? 2 ^ 53) eqn:E; [done|].
  apply Z.ltb_ge in E.
  assert (z = 2 ^ 53 ∨ z = - 2 ^ 53) as [-> | ->] by lia; vm_compute; reflexivity.
Qed.

Lemma add_safe (a b : Z) : Number.safe (a + b) → Number.add a b = a + b.
Proof. apply round_safe. Qed.

Lemma sub_safe (a b : Z) : Number.safe (a - b) → Number.sub a b = a - b.
Proof. apply round_safe. Qed.

Lemma total_abs_nonneg (xs : list Z) : 0 ≤ foldr Z.add 0 (Z.abs <$> xs).
Proof. induction xs as [|x xs IH]; csimpl; lia. Qed.

(** The loop of the fallback adds exactly as long as the absolute
    values of what it adds stay within [2^53]. *)
Lemma foldl_rounding_sum {A} (c : A → bool) (g : A → Z) (a : Z) (l : list A) :
  Z.abs a + foldr Z.add 0 (Z.abs <$> (g <$> filter (λ x, c x) l)) ≤ 2 ^ 53 →
  foldl (λ acc x, if c x then Number.add acc (g x) else acc) a l
  = a + foldr Z.add 0 (g <$> filter (λ x, c x) l).
Proof.
  revert a. induction l as [|x l IH]; intros a; simpl; [lia|].
  rewrite filter_cons. case_decide as Hc; simpl in Hc.
  - apply Is_true_true in Hc. rewrite Hc. csimpl. intros Hb.
    pose proof (total_abs_nonneg (g <$> filter (λ x, c x) l)) as Hnn.
    rewrite add_safe by (unfold Number.safe; lia).
    rewrite IH by lia. lia.
  - apply Is_true_false in Hc. rewrite Hc. apply IH.
Qed.

Lemma filter_selected pg (c : Selected.t → bool) rows :
  Selected.amount <$> filter (λ x, c x) (selected pg <$> rows)
  = DatabaseTransaction.amount <$> filter (λ r, c (selected pg r)) rows.
Proof.
  induction rows as [|r rows IH]; [done|].
  rewrite fmap_cons, !filter_cons. cbn beta.
  destruct (decide (c (selected pg r))); csimpl; by rewrite IH.
Qed.

Lemma filter_ext_in {A} (P Q : A → Prop) `{∀ x, Decision (P x)} `{∀ x, Decision (Q x)}
    (l : list A) :
  (∀ x, x ∈ l → P x ↔ Q x) → filter P l = filter Q l.
Proof.
  induction l as [|x l IH]; intros Hl; [done|].
  rewrite !filter_cons.
  destruct (decide (P x)) as [HP|HP], (decide (Q x)) as [HQ|HQ].
  - f_equal. apply IH. intros y Hy. apply Hl. by right.
  - destruct HQ. apply Hl; [by left|done].
  - destruct HP. apply Hl; [by left|done].
  - apply IH. intros y Hy. apply Hl. by right.
Qed.

Lemma sorts_as_instants_spec pg ts x y :
  sorts_as_instants pg ts → x ∈ ts → y ∈ ts →
  Postgres.timestamptz_out pg x ≠ ""
  ∧ string_ge (Postgres.timestamptz_out pg x) (Postgres.timestamptz_out pg y)
    = (x >=? y).
Proof.
  unfold sorts_as_instants. rewrite Forall_forall. intros Hts Hx Hy.
  destruct (Hts x Hx) as [Hne Hall]. split; [done|].
  rewrite Forall_forall in Hall. by apply Hall.
Qed.

Lemma instant_of_row rows (r : DatabaseTransaction.t) x :
  r ∈ rows → DatabaseTransaction.created_at r = Some x → x ∈ instants rows.
Proof. intros Hr Hx. apply list_elem_of_omap. by exists r. Qed.

(** On texts that sort as the instants do, the comparison of the
    fallback is the comparison of the specification. *)
Lemma at_or_after_selected pg rows (w r : DatabaseTransaction.t) :
  sorts_as_instants pg (instants rows) → w ∈ rows → r ∈ rows →
  at_or_after (selected pg w) (selected pg r) = true
  ↔ Spec.at_or_after (DatabaseTransaction.created_at w) (DatabaseTransaction.created_at r).
Proof.
  intros Hord Hw Hr. unfold at_or_after. simpl.
  destruct (DatabaseTransaction.created_at w) as [x|] eqn:Hx,
           (DatabaseTransaction.created_at r) as [y|] eqn:Hy; simpl;
    rewrite ?andb_false_r; try (split; [discriminate|tauto]).
  pose proof (instant_of_row _ _ _ Hw Hx) as Hx'.
  pose proof (instant_of_row _ _ _ Hr Hy) as Hy'.
  destruct (sorts_as_instants_spec pg _ x y Hord Hx' Hy') as [Hnx Hxy].
  destruct (sorts_as_instants_spec pg _ y y Hord Hy' Hy') as [Hny _].
  rewrite !bool_decide_eq_false_2 by done. simpl. rewrite Hxy.
  destruct (x >=? y) eqn:E; split; try done; lia.
Qed.

Lemma rows_of_elem accountId rows (r : DatabaseTransaction.t) :
  r ∈ rows_of accountId rows ↔ DatabaseTransaction.account_id r = accountId ∧ r ∈ rows.
Proof. unfold rows_of. by rewrite list_elem_of_filter. Qed.

Lemma some_withdraw_resolves accountId pg now s (r : DatabaseTransaction.t) ws :
  sorts_as_instants pg (instants (rows_of accountId (transactions s))) →
  selection accountId "withdraw" pg now s = Some ws →
  r ∈ transactions s →
  DatabaseTransaction.account_id r = accountId →
  existsb (λ w, at_or_after w (selected pg r)) ws = true
  ↔ Exists (λ w, Spec.resolves w r) (transactions s).
Proof.
  intros Hord [= <-] Hin Hr. rewrite existsb_Exists, Exists_fmap.
  rewrite merge_sort_Permutation, !Exists_exists.
  assert (Hr' : r ∈ rows_of accountId (transactions s)) by by apply rows_of_elem.
  split.
  - intros (w & Hw & Hat). apply list_elem_of_filter in Hw as [Hq Hw].
    apply andb_True in Hq as [Ha Ht]. apply bool_decide_spec in Ha, Ht.
    exists w. split; [done|]. split; [done|]. split; [congruence|].
    eapply at_or_after_selected; [exact Hord| |exact Hr'|exact Hat].
    by apply rows_of_elem.
  - intros (w & Hw & Hty & Hacc & Hat). exists w. split.
    + apply list_elem_of_filter. split; [|done].
      apply andb_True. split; apply bool_decide_spec; congruence.
    + eapply at_or_after_selected; [exact Hord| |exact Hr'|exact Hat].
      apply rows_of_elem. split; [congruence|done].
Qed.

(** The requests the loop of the fallback counts are the pending
    requests of the specification. *)
Lemma fallback_counts_pending accountId pg now now' s reqs ws :
  sorts_as_instants pg (instants (rows_of accountId (transactions s))) →
  selection accountId "withdraw_request" pg now s = Some reqs →
  selection accountId "withdraw" pg now' s = Some ws →
  Selected.amount <$>
    filter (λ request, negb (existsb (λ w, at_or_after w request) ws)) reqs
  ≡ₚ DatabaseTransaction.amount <$>
       filter (Spec.pending (transactions s) accountId) (transactions s).
Proof.
  intros Hord [= <-] Hws.
  rewrite (filter_selected pg (λ request, negb (existsb (λ w, at_or_after w request) ws))).
  etrans; [apply fmap_Permutation, filter_Permutation, merge_sort_Permutation|].
  rewrite list_filter_filter.
  apply reflexive_eq. f_equal.
  apply filter_ext_in. intros r Hin. unfold Spec.pending.
  rewrite andb_True, !bool_decide_spec, negb_True, Is_true_true.
  split.
  - intros (Hno & Hacc & Hty). split; [done|]. split; [done|].
    by rewrite <- (some_withdraw_resolves _ _ _ _ _ _ Hord Hws Hin Hacc).
  - intros (Hty & Hacc & Hno). split; [|done].
    by rewrite (some_withdraw_resolves _ _ _ _ _ _ Hord Hws Hin Hacc).
Qed.

(** Where the texts sort as the instants and the pending requests add
    up without rounding, the pending amount of the fallback is the
    pending amount of the specification. *)
Lemma fallback_pending_amount_spec accountId pg now s :
  sorts_as_instants pg (instants (rows_of accountId (transactions s))) →
  adds_exactly (transactions s) accountId →
  fallback_pending pg now s accountId = Spec.pending_total (transactions s) accountId.
Proof.
  intros Hord Hsum. unfold fallback_pending.
  destruct (selection accountId "withdraw" pg now s) as [ws|] eqn:Hws; [|done].
  destruct (selection accountId "withdraw_request" pg now s) as [reqs|] eqn:Hreqs;
    [|done].
  pose proof (fallback_counts_pending _ _ _ _ _ _ _ Hord Hreqs Hws) as Hperm.
  unfold pendingAmount_of, Spec.pending_total. simpl.
  rewrite (foldl_rounding_sum
             (λ request, negb (existsb (λ w, at_or_after w request) ws))
             Selected.amount).
  - rewrite Z.add_0_l. by apply total_Permutation.
  - rewrite (total_Permutation _ _ (fmap_Permutation Z.abs _ _ Hperm)).
    unfold adds_exactly in Hsum. simpl. lia.
Qed.

(** The decision of the fallback is then [B - P >= A]. *)
Lemma fallback_approves_spec pg now s accountId requested :
  computes_exactly pg s accountId →
  fallback_approves pg now s accountId requested
  = bool_decide (Spec.covers s accountId requested).
Proof.
  intros (Hord & Hsum & Hsafe). unfold fallback_approves.
  rewrite fallback_pending_amount_spec by done.
  rewrite sub_safe by done.
  destruct (decide (Spec.covers s accountId requested)) as [Hc|Hc];
    [rewrite (bool_decide_eq_true_2 _ Hc) | rewrite (bool_decide_eq_false_2 _ Hc)].
  all: unfold Spec.covers in Hc; lia.
Qed.

End pending_amount.

(** ** Running the functions of [db.ts] in a ready world *)

Section ready_world.

Implicit Types (w : World) (accountId : string).

Lemma bind_Fulfilled {A B} (m : Async A) (k : A → Async B) w w' a :
  m w = (w', Fulfilled a) → bind m k w = k a w'.
Proof. unfold bind. by intros ->. Qed.

Lemma bind_Rejected {A B} (m : Async A) (k : A → Async B) w w' e :
  m w = (w', Rejected e) → bind m k w = (w', Rejected e).
Proof. unfold bind. by intros ->. Qed.

Lemma bind_Pending {A B} (m : Async A) (k : A → Async B) w w' :
  m w = (w', Pending) → bind m k w = (w', Pending).
Proof. unfold bind. by intros ->. Qed.

Lemma ready_after w s c : ready (after w s c).
Proof. done. Qed.

Lemma ready_script w : ready w → script w = [].
Proof. by intros [_ ?]. Qed.

Lemma getSupabaseClient_ready w :
  ready w →
  getSupabaseClient w = (after w (store w) (console w), Fulfilled (client_of w)).
Proof.
  destruct w as [e sb s pg n sc c]. unfold ready, credentials_set, getSupabaseClient,
    during, client_of. simpl. intros [Hc ->]. destruct sb as [cl|]; [done|].
  apply andb_true_iff in Hc as [-> ->]. done.
Qed.

Lemma after_after w rs s c rs' s' c' :
  during (during w rs s c) rs' s' c' = during w rs' s' c'.
Proof. done. Qed.

Lemma call_after {A} (run : Postgres.t → Z → Store → Store * Result.t A) w s c :
  call run (after w s c)
  = (after w (run (postgres w) (now w) s).1 c, Fulfilled (run (postgres w) (now w) s).2).
Proof. unfold call, next_reply, pop. simpl. by destruct (run (postgres w) (now w) s). Qed.

Lemma select_transactions_result accountId ty pg now s :
  select_transactions accountId ty pg now s
  = (s, Result.mk (selection accountId ty pg now s) None).
Proof. done. Qed.

Lemma getAccountBalance_ready accountId w :
  ready w →
  getAccountBalance accountId w
  = (after w (store w) (console w), Fulfilled (balance_of w accountId)).
Proof.
  intros Hw. unfold getAccountBalance.
  rewrite (bind_Fulfilled _ _ _ _ _ (getSupabaseClient_ready w Hw)).
  rewrite (bind_Fulfilled _ _ _ _ _ (call_after _ _ _ _)).
  unfold select_balance, balance_of, balance_in. simpl.
  destruct (accounts (store w) !! accountId) as [a|]; simpl; [|done].
  unfold ret. by case_bool_decide as Hz; [rewrite Hz|].
Qed.

Lemma updateAccountBalance_ready accountId newBalance w :
  ready w →
  updateAccountBalance accountId newBalance w
  = (after w (with_balance accountId newBalance (now w) (store w)) (console w),
     Fulfilled tt).
Proof.
  intros Hw. unfold updateAccountBalance.
  rewrite (bind_Fulfilled _ _ _ _ _ (getSupabaseClient_ready w Hw)).
  by rewrite (bind_Fulfilled _ _ _ _ _ (call_after _ _ _ _)).
Qed.

Lemma mutate_ready op accountId amount w :
  ready w →
  mutate op accountId amount w
  = (after w (with_balance accountId
                (new_balance op (balance_of w accountId) amount) (now w) (store w))
       (console w),
     Fulfilled tt).
Proof.
  intros Hw. destruct op; simpl;
    unfold incrementAccountBalance, decrementAccountBalance.
  all: rewrite (bind_Fulfilled _ _ _ _ _ (getSupabaseClient_ready w Hw)).
  all: rewrite (bind_Fulfilled _ _ _ _ _
                  (getAccountBalance_ready _ _ (ready_after _ _ _))).
  all: by rewrite updateAccountBalance_ready.
Qed.

Lemma recorded_iff (i : string) (rows : list DatabaseTransaction.t) :
  existsb (λ r, bool_decide (DatabaseTransaction.id r = i)) rows = true
  ↔ i ∈ DatabaseTransaction.id <$> rows.
Proof.
  rewrite existsb_Exists, Exists_exists, list_elem_of_fmap.
  split; intros (r & H1 & H2).
  - apply bool_decide_eq_true in H2. by exists r.
  - exists r. split; [done|]. by apply bool_decide_eq_true.
Qed.

Lemma insertTransaction_fresh (t : Transaction.t) w :
  ready w → accepted w t →
  Transaction.id t ∉ log_ids w → valid_type (Transaction.type t) = true →
  insertTransaction t w
  = (after w (with_row (stored t (now w)) (store w)) (console w), Fulfilled tt).
Proof.
  intros Hw Hts Hfresh Hty. unfold insertTransaction.
  rewrite (bind_Fulfilled _ _ _ _ _ (getSupabaseClient_ready w Hw)).
  rewrite (bind_Fulfilled _ _ _ _ _ (call_after _ _ _ _)).
  unfold insert_into_transactions. simpl. rewrite Hts, Hty. simpl.
  destruct (existsb _ _) eqn:Hex; [|done].
  apply recorded_iff in Hex. by destruct Hfresh.
Qed.

Lemma insertTransaction_duplicate (t : Transaction.t) w :
  ready w → accepted w t →
  Transaction.id t ∈ log_ids w → valid_type (Transaction.type t) = true →
  insertTransaction t w
  = (after w (store w)
       (console w ++ [mkLog LOG
          ("Transaction " +:+ Transaction.id t +:+ " already exists, skipping") []]),
     Fulfilled tt).
Proof.
  intros Hw Hts Hdup Hty. unfold insertTransaction.
  rewrite (bind_Fulfilled _ _ _ _ _ (getSupabaseClient_ready w Hw)).
  rewrite (bind_Fulfilled _ _ _ _ _ (call_after _ _ _ _)).
  unfold insert_into_transactions. simpl. rewrite Hts, Hty. simpl.
  apply recorded_iff in Hdup. unfold log_ids in Hdup. by rewrite Hdup.
Qed.

(** In a ready world [insertTransaction] returns, leaves the accounts
    alone and leaves the transaction's id in the log: appended when the
    id is new, found there when it is not. *)
Lemma insertTransaction_ready (t : Transaction.t) w :
  ready w → accepted w t → valid_type (Transaction.type t) = true →
  ∃ s c,
    insertTransaction t w = (after w s (console w ++ c), Fulfilled tt)
    ∧ accounts s = accounts (store w)
    ∧ Transaction.id t ∈ DatabaseTransaction.id <$> transactions s
    ∧ (Transaction.id t ∉ log_ids w →
       transactions s = (transactions (store w) ++ [stored t (now w)])%list)
    ∧ (Transaction.id t ∈ log_ids w → s = store w).
Proof.
  intros Hw Hts Hty. destruct (decide (Transaction.id t ∈ log_ids w)) as [Hin|Hnin].
  - eexists _, _. split; [by apply insertTransaction_duplicate|].
    repeat split; done.
  - exists (with_row (stored t (now w)) (store w)), [].
    rewrite app_nil_r. split; [by apply insertTransaction_fresh|].
    repeat split; try done.
    simpl. rewrite fmap_app. set_solver.
Qed.

(** A transaction whose timestamp the session cannot read is not
    inserted: [insertTransaction] throws and the store is as it was. *)
Lemma insertTransaction_unreadable (t : Transaction.t) w :
  ready w → ¬ accepted w t →
  insertTransaction t w
  = (after w (store w) (console w), Rejected (mkError (unreadable_timestamp t))).
Proof.
  intros Hw Hts. unfold insertTransaction.
  rewrite (bind_Fulfilled _ _ _ _ _ (getSupabaseClient_ready w Hw)).
  rewrite (bind_Fulfilled _ _ _ _ _ (call_after _ _ _ _)).
  unfold insert_into_transactions, accepted in *. simpl.
  apply not_true_is_false in Hts. by rewrite Hts.
Qed.

Lemma sql_check_store now s accountId requested :
  (Sql.check_withdraw_request now s accountId requested).1
  = match accounts s !! accountId with
    | Some _ => s
    | None => with_balance accountId 0 now s
    end.
Proof.
  unfold Sql.check_withdraw_request.
  destruct (accounts s !! accountId); simpl; by destruct (_ >=? _).
Qed.

Lemma sql_check_transactions now s accountId requested :
  transactions (Sql.check_withdraw_request now s accountId requested).1
  = transactions s.
Proof. rewrite sql_check_store. by destruct (accounts s !! accountId). Qed.

Lemma sql_check_balance now s accountId requested a :
  balance_in (Sql.check_withdraw_request now s accountId requested).1 a
  = balance_in s a.
Proof.
  rewrite sql_check_store. unfold balance_in.
  destruct (accounts s !! accountId) as [acc|] eqn:Hacc; [done|]. simpl.
  destruct (decide (accountId = a)) as [->|Hne].
  - by rewrite lookup_insert_eq, Hacc.
  - by rewrite lookup_insert_ne.
Qed.

Lemma sql_check_decision now s accountId requested :
  (Sql.check_withdraw_request now s accountId requested).2
  = bool_decide (Spec.covers s accountId requested).
Proof.
  destruct (decide (Spec.covers s accountId requested)) as [Hc|Hc];
    [rewrite (bool_decide_eq_true_2 _ Hc) | rewrite (bool_decide_eq_false_2 _ Hc)].
  all: unfold Spec.covers, balance_in in Hc; unfold Sql.check_withdraw_request.
  all: destruct (accounts s !! accountId) as [acc|]; simpl in *.
  all: rewrite sql_pending_amount_spec.
  all: destruct (_ >=? _) eqn:E; simpl; try done; lia.
Qed.

Lemma checkAndReserveBalance_ready accountId requested w :
  ready w →
  checkAndReserveBalance accountId requested w
  = (after w (Sql.check_withdraw_request (now w) (store w) accountId requested).1
       (console w),
     Fulfilled (bool_decide (Spec.covers (store w) accountId requested))).
Proof.
  intros Hw. unfold checkAndReserveBalance.
  rewrite (bind_Fulfilled _ _ _ _ _ (getSupabaseClient_ready w Hw)).
  rewrite (bind_Fulfilled _ _ _ _ _ (call_after _ _ _ _)).
  unfold rpc_check_withdraw_request. simpl.
  rewrite <- sql_check_decision with (now := now w).
  destruct (Sql.check_withdraw_request _ _ _ _) as [s' b]. simpl.
  unfold ret. do 2 f_equal. by destruct b.
Qed.

Lemma checkAndReserveBalanceFallback_ready accountId requested w :
  ready w →
  checkAndReserveBalanceFallback accountId requested w
  = (after w (store w) (console w),
     Fulfilled (fallback_approves (postgres w) (now w) (store w) accountId requested)).
Proof.
  intros Hw. unfold checkAndReserveBalanceFallback.
  rewrite (bind_Fulfilled _ _ _ _ _ (getSupabaseClient_ready w Hw)).
  rewrite (bind_Fulfilled _ _ _ _ _
             (getAccountBalance_ready _ _ (ready_after _ _ _))), after_after.
  rewrite (bind_Fulfilled _ _ _ _ _ (call_after _ _ _ _)).
  rewrite select_transactions_result. cbn [fst snd Result.error Result.data].
  rewrite (bind_Fulfilled _ _ _ _ _ (call_after _ _ _ _)).
  rewrite select_transactions_result. cbn [fst snd Result.error Result.data].
  reflexivity.
Qed.

Lemma try_catch_Fulfilled {A} (m : Async A) h w w' a :
  m w = (w', Fulfilled a) → try_catch m h w = (w', Fulfilled a).
Proof. unfold try_catch. by intros ->. Qed.

Lemma try_catch_Rejected {A} (m : Async A) h w w' e :
  m w = (w', Rejected e) → try_catch m h w = h e w'.
Proof. unfold try_catch. by intros ->. Qed.

Lemma try_catch_Pending {A} (m : Async A) h w w' :
  m w = (w', Pending) → try_catch m h w = (w', Pending).
Proof. unfold try_catch. by intros ->. Qed.

Lemma race_timeout_Fulfilled {A} (p : Async A) w w' a :
  p w = (w', Fulfilled a) → race_timeout p w = (w', Fulfilled a).
Proof. unfold race_timeout. by intros ->. Qed.

Lemma console_log_run l txt fs w :
  console_log l txt fs w = (add_console (mkLog l txt fs) w, Fulfilled tt).
Proof. done. Qed.

Lemma console_log_after l txt fs w rs s c :
  console_log l txt fs (during w rs s c)
  = (during w rs s (c ++ [mkLog l txt fs]), Fulfilled tt).
Proof. done. Qed.

Lemma ready_add_console e w : ready w → ready (add_console e w).
Proof. by destruct w. Qed.

Lemma after_add_console e w rs s c :
  during (add_console e w) rs s c = during w rs s c.
Proof. done. Qed.

Lemma balance_in_with_balance accountId b now s :
  balance_in (with_balance accountId b now s) accountId = b.
Proof. unfold balance_in, with_balance. simpl. by rewrite lookup_insert_eq. Qed.

Lemma balance_in_with_balance_ne accountId a b now s :
  accountId ≠ a →
  balance_in (with_balance accountId b now s) a = balance_in s a.
Proof.
  intros Hne. unfold balance_in, with_balance. simpl. by rewrite lookup_insert_ne.
Qed.

Lemma balance_in_accounts s s' a :
  accounts s = accounts s' → balance_in s a = balance_in s' a.
Proof. unfold balance_in. by intros ->. Qed.

End ready_world.

(** One answered step of a handler: rewrite with the equation [lem]
    of the function that runs next and bring the world back to the
    form [after w s c]. *)
Tactic Notation "run" uconstr(lem) :=
  rewrite (bind_Fulfilled _ _ _ _ _ lem); rewrite ?after_after, ?after_add_console.
Ltac run_log := run (console_log_after _ _ _ _ _ _ _).

(** ** The handlers in a ready world *)

Section handlers_ready.

Implicit Types (w : World) (t : Transaction.t).

Lemma mutation_applied op t w s c :
  accounts s = accounts (store w) →
  Transaction.id t ∈ DatabaseTransaction.id <$> transactions s →
  (Transaction.id t ∉ log_ids w →
   transactions s = (transactions (store w) ++ [stored t (now w)])%list) →
  (Transaction.id t ∈ log_ids w → s = store w) →
  applied op t w
    (after w (with_balance (Transaction.accountId t)
                (new_balance op (balance_in s (Transaction.accountId t))
                   (Transaction.amount t)) (now w) s) c,
     Fulfilled (Response.mk 200 NoBody)).
Proof.
  intros Hacc Hin Hfresh Hdup. unfold applied, balance_of, log_ids. simpl.
  split; [done|]. split.
  { by rewrite balance_in_with_balance, (balance_in_accounts _ _ _ Hacc). }
  split.
  { intros a Ha. rewrite balance_in_with_balance_ne by done.
    by apply balance_in_accounts. }
  split; [done|]. split; [done|]. by intros ->%Hdup.
Qed.

Lemma deposit_case_ready t w :
  ready w → accepted w t → Transaction.type t = "deposit" →
  applied Increment t w (deposit_case t w).
Proof.
  intros Hw Hts Hty.
  destruct (insertTransaction_ready t w Hw Hts)
    as (s & c & Hins & Hacc & Hin & Hfresh & Hdup).
  { by rewrite Hty. }
  unfold deposit_case. run Hins. run_log.
  run (mutate_ready Increment _ _ _ (ready_after _ _ _)).
  run (getAccountBalance_ready _ _ (ready_after _ _ _)).
  run_log. unfold ret. cbn [during store console now].
  by apply (mutation_applied Increment).
Qed.

Lemma withdraw_case_ready t w :
  ready w → accepted w t → Transaction.type t = "withdraw" →
  applied Decrement t w (withdraw_case t w).
Proof.
  intros Hw Hts Hty.
  destruct (insertTransaction_ready t w Hw Hts)
    as (s & c & Hins & Hacc & Hin & Hfresh & Hdup).
  { by rewrite Hty. }
  unfold withdraw_case. run Hins. run_log.
  run (mutate_ready Decrement _ _ _ (ready_after _ _ _)).
  run (getAccountBalance_ready _ _ (ready_after _ _ _)).
  run_log. unfold ret. cbn [during store console now].
  by apply (mutation_applied Decrement).
Qed.

(** The tail of the [withdraw_request] case on a world in which every
    call is answered. *)
Lemma answer_request_after t approved w s1 c1 :
  accepted w t → Transaction.type t = "withdraw_request" →
  ∃ s c,
    answer_request t approved (after w s1 c1)
    = (after w s (c1 ++ c),
       Fulfilled (Response.mk (if approved then 201 else 402) NoBody))
    ∧ accounts s = accounts s1
    ∧ Transaction.id t ∈ DatabaseTransaction.id <$> transactions s
    ∧ (Transaction.id t ∉ DatabaseTransaction.id <$> transactions s1 →
       transactions s = (transactions s1 ++ [stored t (now w)])%list)
    ∧ (Transaction.id t ∈ DatabaseTransaction.id <$> transactions s1 → s = s1).
Proof.
  intros Hts Hty.
  destruct (insertTransaction_ready t (after w s1 c1) (ready_after _ _ _) Hts)
    as (s & c & Hins & Hacc & Hin & Hfresh & Hdup).
  { by rewrite Hty. }
  rewrite after_after in Hins.
  unfold log_ids in Hfresh, Hdup. cbn [during store now console] in *.
  unfold answer_request.
  run (getAccountBalance_ready _ _ (ready_after _ _ _)).
  cbn [during store console].
  destruct approved; run Hins; run_log; rewrite <- app_assoc;
    eexists _, _; (split; [reflexivity|done]).
Qed.

Lemma withdraw_request_case_ready t w :
  ready w → accepted w t → Transaction.type t = "withdraw_request" →
  decided t w (withdraw_request_case t w).
Proof.
  intros Hw Hts Hty. unfold withdraw_request_case.
  set (s1 := (Sql.check_withdraw_request (now w) (store w)
                (Transaction.accountId t) (Transaction.amount t)).1).
  set (c1 := (console w ++
              [mkLog LOG ("Checking withdraw_request: " +:+ Transaction.id t)
                 [("accountId", JStr (Transaction.accountId t));
                  ("requestedAmount", JNum (Transaction.amount t))]])%list).
  destruct (answer_request_after t
              (bool_decide (Spec.covers (store w) (Transaction.accountId t)
                              (Transaction.amount t))) w s1 c1 Hts Hty)
    as (s & c & Hans & Hacc & Hin & Hfresh & Hdup).
  erewrite try_catch_Fulfilled.
  2:{ run (console_log_run _ _ _ _).
      run (race_timeout_Fulfilled _ _ _ _
             (checkAndReserveBalance_ready _ _ _ (ready_add_console _ _ Hw))).
      cbn [add_console store now console]. fold s1 c1. exact Hans. }
  unfold decided, balance_of, log_ids. cbn [fst snd during store].
  split.
  { destruct (decide (Spec.covers _ _ _)) as [Hc|Hc];
      [rewrite bool_decide_eq_true_2 | rewrite bool_decide_eq_false_2]; done. }
  split.
  { intros a. rewrite (balance_in_accounts _ _ _ Hacc). apply sql_check_balance. }
  split; [done|].
  unfold s1 in Hfresh, Hdup. rewrite sql_check_transactions in Hfresh, Hdup.
  split; [done|]. intros ->%Hdup. apply sql_check_transactions.
Qed.

(** The handler logs the request and enters the [switch]. *)
Lemma post_transaction_switch t w :
  ∃ e, post_transaction t w
       = try_catch (switch_type t) (internal_server_error t) (add_console e w).
Proof. eexists. reflexivity. Qed.

Lemma post_transaction_deposit_ready t w :
  ready w → accepted w t → Transaction.type t = "deposit" →
  applied Increment t w (post_transaction t w).
Proof.
  intros Hw Hts Hty. destruct (post_transaction_switch t w) as [e ->].
  pose proof (deposit_case_ready t _ (ready_add_console e w Hw) Hts Hty) as Hr.
  unfold switch_type. rewrite (bool_decide_eq_true_2 _ Hty).
  destruct (deposit_case t (add_console e w)) as [w' p] eqn:Hd.
  destruct Hr as (Hp & Hrest). simpl in Hp. subst p.
  rewrite (try_catch_Fulfilled _ _ _ _ _ Hd). by split.
Qed.

Lemma post_transaction_withdraw_ready t w :
  ready w → accepted w t → Transaction.type t = "withdraw" →
  applied Decrement t w (post_transaction t w).
Proof.
  intros Hw Hts Hty. destruct (post_transaction_switch t w) as [e ->].
  pose proof (withdraw_case_ready t _ (ready_add_console e w Hw) Hts Hty) as Hr.
  unfold switch_type. rewrite Hty. cbn [bool_decide decide_rel].
  rewrite 2!bool_decide_eq_false_2 by done.
  rewrite bool_decide_eq_true_2 by done.
  destruct (withdraw_case t (add_console e w)) as [w' p] eqn:Hd.
  destruct Hr as (Hp & Hrest). simpl in Hp. subst p.
  rewrite (try_catch_Fulfilled _ _ _ _ _ Hd). by split.
Qed.

Lemma post_transaction_withdraw_request_ready t w :
  ready w → accepted w t → Transaction.type t = "withdraw_request" →
  decided t w (post_transaction t w).
Proof.
  intros Hw Hts Hty. destruct (post_transaction_switch t w) as [e ->].
  pose proof (withdraw_request_case_ready t _ (ready_add_console e w Hw) Hts Hty) as Hr.
  unfold switch_type. rewrite Hty.
  rewrite bool_decide_eq_false_2 by done.
  rewrite bool_decide_eq_true_2 by done.
  destruct (withdraw_request_case t (add_console e w)) as [w' p] eqn:Hd.
  destruct Hr as (Hp & Hrest). simpl in Hp. subst p.
  rewrite (try_catch_Fulfilled _ _ _ _ _ Hd). by split.
Qed.

(** A request whose timestamp the session cannot read ends in 500 at
    the insert: the log and the balances are as they were. *)
Lemma unreadable_timestamp_not_timeout t : unreadable_timestamp t ≠ "Timeout".
Proof. done. Qed.

Lemma mutation_case_unreadable t w (k : Async Response.t) :
  ready w → ¬ accepted w t →
  try_catch (insertTransaction t ;; k) (internal_server_error t) w
  = (after w (store w)
       (console w ++
        [mkLog ERROR ("Error processing transaction " +:+ Transaction.id t +:+ ":")
           [("transactionId", JStr (Transaction.id t));
            ("type", JStr (Transaction.type t));
            ("accountId", JStr (Transaction.accountId t));
            ("error", JStr (unreadable_timestamp t))]]),
     Fulfilled (Response.mk 500
       (ServerError "Internal server error" (unreadable_timestamp t)))).
Proof.
  intros Hw Hts.
  rewrite (try_catch_Rejected _ _ _ _ _
             (bind_Rejected _ _ _ _ _ (insertTransaction_unreadable t w Hw Hts))).
  unfold internal_server_error. by run_log.
Qed.

Lemma withdraw_request_case_unreadable t w :
  ready w → ¬ accepted w t →
  ∃ c,
    withdraw_request_case t w
    = (after w (Sql.check_withdraw_request (now w) (store w)
                  (Transaction.accountId t) (Transaction.amount t)).1 c,
       Rejected (mkError (unreadable_timestamp t))).
Proof.
  intros Hw Hts. unfold withdraw_request_case. eexists.
  erewrite try_catch_Rejected.
  2:{ run (console_log_run _ _ _ _).
      run (race_timeout_Fulfilled _ _ _ _
             (checkAndReserveBalance_ready _ _ _ (ready_add_console _ _ Hw))).
      cbn [add_console store now console]. unfold answer_request.
      run (getAccountBalance_ready _ _ (ready_after _ _ _)).
      cbn [during store console].
      assert (¬ accepted (after w (Sql.check_withdraw_request (now w) (store w)
                                     (Transaction.accountId t) (Transaction.amount t)).1
                            (console w ++
                             [mkLog LOG ("Checking withdraw_request: " +:+ Transaction.id t)
                                [("accountId", JStr (Transaction.accountId t));
                                 ("requestedAmount", JNum (Transaction.amount t))]])) t)
        as Hts' by done.
      destruct (bool_decide _);
        apply bind_Rejected;
        rewrite (insertTransaction_unreadable _ _ (ready_after _ _ _) Hts');
        rewrite after_after; reflexivity. }
  unfold on_check_error.
  rewrite bool_decide_eq_false_2 by apply unreadable_timestamp_not_timeout.
  reflexivity.
Qed.

Lemma post_transaction_unreadable t w :
  ready w → ¬ accepted w t → valid_type (Transaction.type t) = true →
  (post_transaction t w).2
  = Fulfilled (Response.mk 500
      (ServerError "Internal server error" (unreadable_timestamp t)))
  ∧ transactions (store (post_transaction t w).1) = transactions (store w)
  ∧ (∀ a, balance_of (post_transaction t w).1 a = balance_of w a)
  ∧ (Transaction.type t ≠ "withdraw_request" →
     store (post_transaction t w).1 = store w).
Proof.
  intros Hw Hts Hty. destruct (post_transaction_switch t w) as [e ->].
  pose proof (ready_add_console e w Hw) as Hw'.
  assert (Hts' : ¬ accepted (add_console e w) t) by done.
  unfold valid_type in Hty.
  apply orb_true_iff in Hty as [Hty|Hty]; [apply orb_true_iff in Hty as [Hty|Hty]|];
    apply bool_decide_eq_true in Hty.
  - unfold switch_type. rewrite (bool_decide_eq_true_2 _ Hty). unfold deposit_case.
    rewrite mutation_case_unreadable by done. by rewrite Hty.
  - unfold switch_type. rewrite Hty.
    rewrite bool_decide_eq_false_2 by done. rewrite bool_decide_eq_true_2 by done.
    destruct (withdraw_request_case_unreadable t _ Hw' Hts') as [c Hc].
    rewrite (try_catch_Rejected _ _ _ _ _ Hc).
    unfold internal_server_error. run_log. unfold ret.
    cbn [fst snd during store add_console now]. split; [done|]. split.
    { apply sql_check_transactions. }
    split; [|done]. intros a. apply sql_check_balance.
  - unfold switch_type. rewrite Hty.
    rewrite 2!bool_decide_eq_false_2 by done. rewrite bool_decide_eq_true_2 by done.
    unfold withdraw_case.
    rewrite mutation_case_unreadable by done. by rewrite Hty.
Qed.

End handlers_ready.

(** ** The scenarios of the specification *)

Section scenarios.

Let w0 := at_time 1 (boot configured_env).
Let w1 := (post_transaction (sample "t1" "deposit" 100) w0).1.
Let w2 := (post_transaction (sample "t2" "withdraw_request" 60) (at_time 2 w1)).1.
Let w3 := (post_transaction (sample "t3" "withdraw_request" 60) (at_time 3 w2)).1.
Let w4 := (post_transaction (sample "t4" "withdraw" 60) (at_time 4 w3)).1.

Example scenario_deposit :
  status_of (post_transaction (sample "t1" "deposit" 100) w0) = Some 200
  ∧ (get_account "acc1" w1).2 = Fulfilled (Response.mk 200 (Balance "acc1" 100)).
Proof. split; vm_compute; reflexivity. Qed.

Example scenario_request_approved :
  status_of (post_transaction (sample "t2" "withdraw_request" 60) (at_time 2 w1))
  = Some 201
  ∧ balance_of w2 "acc1" = 100.
Proof. split; vm_compute; reflexivity. Qed.

Example scenario_second_request_denied :
  status_of (post_transaction (sample "t3" "withdraw_request" 60) (at_time 3 w2))
  = Some 402
  ∧ log_ids w3 = ["t1"; "t2"; "t3"].
Proof. split; vm_compute; reflexivity. Qed.

Example scenario_withdraw_resolves :
  status_of (post_transaction (sample "t4" "withdraw" 60) (at_time 4 w3)) = Some 200
  ∧ balance_of w4 "acc1" = 40
  ∧ status_of (post_transaction (sample "t5" "withdraw_request" 40) (at_time 5 w4))
    = Some 201.
Proof. repeat split; vm_compute; reflexivity. Qed.

Example scenario_unknown_type :
  status_of (post_transaction (sample "t9" "refund" 5) w1) = Some 400
  ∧ store (post_transaction (sample "t9" "refund" 5) w1).1 = store w1.
Proof. split; vm_compute; reflexivity. Qed.

Example scenario_unknown_account :
  (get_account "nobody" w1).2 = Fulfilled (Response.mk 200 (Balance "nobody" 0)).
Proof. vm_compute. reflexivity. Qed.

End scenarios.

(** * The claims *)













(** C1, as the code has it.  A deposit or a withdraw whose id is already
    in the log, and whose timestamp the session reads, is answered 200
    and the log gains no entry, but the balance is changed again by the
    amount of the resubmission: [insertTransaction] returns normally on
    the duplicate and the handler goes on to [incrementAccountBalance] /
    [decrementAccountBalance].  (When the session cannot read the
    timestamp the insert fails before the id is looked at: the response
    is 500 and the store is as it was.) *)
Theorem resubmission_changes_balance_again (t : Transaction.t) (w : World) :
  ready w → Transaction.id t ∈ log_ids w →
  let r := post_transaction t w in
  let B := balance_of w (Transaction.accountId t) in
  let A := Transaction.amount t in
  (Transaction.type t = "deposit" →
   (accepted w t →
    status_of r = Some 200
    ∧ transactions (store r.1) = transactions (store w)
    ∧ balance_of r.1 (Transaction.accountId t) = Number.add B A
    ∧ (Number.safe (B + A) → balance_of r.1 (Transaction.accountId t) = B + A))
   ∧ (¬ accepted w t → status_of r = Some 500 ∧ store r.1 = store w))
  ∧ (Transaction.type t = "withdraw" →
     (accepted w t →
      status_of r = Some 200
      ∧ transactions (store r.1) = transactions (store w)
      ∧ balance_of r.1 (Transaction.accountId t) = Number.sub B A
      ∧ (Number.safe (B - A) → balance_of r.1 (Transaction.accountId t) = B - A))
     ∧ (¬ accepted w t → status_of r = Some 500 ∧ store r.1 = store w)).
Proof.
  intros Hw Hdup r B A. subst A B. split; intros Hty; split; intros Hts.
  - destruct (post_transaction_deposit_ready t w Hw Hts Hty)
      as (Hp & Hbal & _ & _ & _ & Hsame).
    fold r in Hp, Hbal, Hsame. unfold status_of. rewrite Hp.
    split; [done|]. split; [auto|]. split; [exact Hbal|].
    intros Hsafe. rewrite Hbal. by apply add_safe.
  - destruct (post_transaction_unreadable t w Hw Hts) as (Hp & _ & _ & Hstore).
    { unfold valid_type. by rewrite Hty. }
    fold r in Hp, Hstore. unfold status_of. rewrite Hp. split; [done|].
    apply Hstore. by rewrite Hty.
  - destruct (post_transaction_withdraw_ready t w Hw Hts Hty)
      as (Hp & Hbal & _ & _ & _ & Hsame).
    fold r in Hp, Hbal, Hsame. unfold status_of. rewrite Hp.
    split; [done|]. split; [auto|]. split; [exact Hbal|].
    intros Hsafe. rewrite Hbal. by apply sub_safe.
  - destruct (post_transaction_unreadable t w Hw Hts) as (Hp & _ & _ & Hstore).
    { unfold valid_type. by rewrite Hty. }
    fold r in Hp, Hstore. unfold status_of. rewrite Hp. split; [done|].
    apply Hstore. by rewrite Hty.
Qed.

Lemma resubmission_changes_balance_again_witness :
  ready (at_time 2 funded)
  ∧ Transaction.id (sample "t1" "deposit" 100) ∈ log_ids (at_time 2 funded)
  ∧ balance_of (at_time 2 funded) "acc1" = 100
  ∧ status_of (post_transaction (sample "t1" "deposit" 100) (at_time 2 funded))
    = Some 200
  ∧ log_ids (post_transaction (sample "t1" "deposit" 100) (at_time 2 funded)).1
    = ["t1"]
  ∧ balance_of (post_transaction (sample "t1" "deposit" 100) (at_time 2 funded)).1
      "acc1" = 100 + 100.
Proof.
  assert (Hw : ready (at_time 2 funded)) by done.
  assert (Hdup : Transaction.id (sample "t1" "deposit" 100)
                 ∈ log_ids (at_time 2 funded)).
  { vm_compute. apply list_elem_of_here. }
  destruct (resubmission_changes_balance_again _ _ Hw Hdup) as [Hd _].
  destruct (Hd eq_refl) as [Haccepted _].
  destruct Haccepted as (Hs & Hl & _ & Hb); [done|].
  split; [exact Hw|]. split; [exact Hdup|]. split; [vm_compute; reflexivity|].
  split; [exact Hs|]. split.
  - unfold log_ids. rewrite Hl. vm_compute. reflexivity.
  - apply Hb. vm_compute. discriminate.
Defined.

(** ** Worlds in which the store fails or stays silent *)

Section scripted_world.

Implicit Types (w : World) (t : Transaction.t).

Lemma getSupabaseClient_set w :
  credentials_set w = true →
  getSupabaseClient w
  = (during w (script w) (store w) (console w), Fulfilled (client_of w)).
Proof.
  destruct w as [e sb s pg n sc c].
  unfold credentials_set, getSupabaseClient, during, client_of. simpl.
  intros Hc. destruct sb as [cl|]; [done|].
  apply andb_true_iff in Hc as [-> ->]. done.
Qed.

Lemma getSupabaseClient_missing w :
  credentials_set w = false →
  getSupabaseClient w
  = (w, Rejected (mkError missing_credentials)).
Proof.
  unfold credentials_set, getSupabaseClient. destruct (supabase w); [done|].
  intros Hc. apply andb_false_iff in Hc as [-> | ->]; [done|].
  by rewrite orb_true_r.
Qed.

Lemma getSupabaseClient_during w rs s c :
  getSupabaseClient (during w rs s c) = (during w rs s c, Fulfilled (client_of w)).
Proof. done. Qed.

Lemma call_answers {A} (run : Postgres.t → Z → Store → Store * Result.t A) w rs s c :
  call run (during w (Answers :: rs) s c)
  = (during w rs (run (postgres w) (now w) s).1 c, Fulfilled (run (postgres w) (now w) s).2).
Proof. unfold call, next_reply, pop. simpl. by destruct (run (postgres w) (now w) s). Qed.

Lemma call_fails {A} (run : Postgres.t → Z → Store → Store * Result.t A) w f msg rs s c :
  call run (during w (Fails f msg :: rs) s c)
  = (during w rs s c,
     Fulfilled (Result.mk None (Some (PostgrestError.mk (sqlstate f) msg)))).
Proof. done. Qed.

Lemma call_silent {A} (run : Postgres.t → Z → Store → Store * Result.t A) w rs s c :
  call run (during w (Silent :: rs) s c) = (during w rs s c, Pending).
Proof. done. Qed.

Lemma race_timeout_Pending {A} (p : Async A) w w' :
  p w = (w', Pending) → race_timeout p w = (w', Rejected (mkError "Timeout")).
Proof. unfold race_timeout. by intros ->. Qed.

Lemma race_timeout_Rejected {A} (p : Async A) w w' e :
  p w = (w', Rejected e) → race_timeout p w = (w', Rejected e).
Proof. unfold race_timeout. by intros ->. Qed.

Lemma credentials_set_add_console e w :
  credentials_set (add_console e w) = credentials_set w.
Proof. done. Qed.

Lemma switch_type_withdraw_request t :
  Transaction.type t = "withdraw_request" → switch_type t = withdraw_request_case t.
Proof.
  intros Hty. unfold switch_type. rewrite Hty.
  rewrite bool_decide_eq_false_2 by done. by rewrite bool_decide_eq_true_2.
Qed.

Lemma switch_type_deposit t :
  Transaction.type t = "deposit" → switch_type t = deposit_case t.
Proof. intros Hty. unfold switch_type. by rewrite bool_decide_eq_true_2. Qed.

Lemma switch_type_withdraw t :
  Transaction.type t = "withdraw" → switch_type t = withdraw_case t.
Proof.
  intros Hty. unfold switch_type. rewrite Hty.
  rewrite 2!bool_decide_eq_false_2 by done. by rewrite bool_decide_eq_true_2.
Qed.

(** The RPC is not answered within the time of the timer. *)
Lemma checkAndReserveBalance_silent accountId requested w rs :
  credentials_set w = true → script w = Silent :: rs →
  checkAndReserveBalance accountId requested w
  = (during w rs (store w) (console w), Pending).
Proof.
  intros Hc Hs. unfold checkAndReserveBalance.
  run (getSupabaseClient_set _ Hc). rewrite Hs.
  apply bind_Pending, call_silent.
Qed.

End scripted_world.

(** C3, as the code has it.  When the reservation check is not answered
    within the 3 seconds of the timer, the withdraw_request is answered
    402, and nothing is written to the store: the [catch] branch for the
    timeout responds without calling [insertTransaction], so the log
    holds no entry for the request. *)
Theorem timed_out_request_is_not_logged (t : Transaction.t) (w : World)
    (rs : list Reply) :
  credentials_set w = true → script w = Silent :: rs →
  Transaction.type t = "withdraw_request" →
  let r := post_transaction t w in
  status_of r = Some 402
  ∧ store r.1 = store w
  ∧ log_ids r.1 = log_ids w.
Proof.
  intros Hc Hs Hty r.
  assert (∃ c, r = (during w rs (store w) c, Fulfilled (Response.mk 402 NoBody)))
    as [c Hr].
  { unfold r. destruct (post_transaction_switch t w) as [e ->].
    rewrite switch_type_withdraw_request by done.
    unfold withdraw_request_case. eexists.
    apply try_catch_Fulfilled.
    erewrite try_catch_Rejected.
    2:{ run (console_log_run _ _ _ _).
        apply bind_Rejected, race_timeout_Pending, checkAndReserveBalance_silent.
        - done.
        - exact Hs. }
    unfold on_check_error. rewrite bool_decide_eq_true_2 by done.
    run (console_log_after _ _ _ _ _ _ _). reflexivity. }
  unfold status_of, log_ids. rewrite Hr. done.
Qed.

Lemma timed_out_request_is_not_logged_witness :
  credentials_set (with_script [Silent] (at_time 2 funded)) = true
  ∧ script (with_script [Silent] (at_time 2 funded)) = [Silent]
  ∧ Transaction.type (sample "t2" "withdraw_request" 60) = "withdraw_request"
  ∧ status_of (post_transaction (sample "t2" "withdraw_request" 60)
                 (with_script [Silent] (at_time 2 funded))) = Some 402
  ∧ log_ids (post_transaction (sample "t2" "withdraw_request" 60)
               (with_script [Silent] (at_time 2 funded))).1 = ["t1"].
Proof.
  assert (Hc : credentials_set (with_script [Silent] (at_time 2 funded)) = true)
    by done.
  assert (Hs : script (with_script [Silent] (at_time 2 funded)) = [Silent]) by done.
  assert (Hty : Transaction.type (sample "t2" "withdraw_request" 60)
                = "withdraw_request") by done.
  destruct (timed_out_request_is_not_logged _ _ _ Hc Hs Hty) as (Hst & _ & Hl).
  split; [exact Hc|]. split; [exact Hs|]. split; [exact Hty|].
  split; [exact Hst|]. rewrite Hl. vm_compute. reflexivity.
Defined.

(** ** Missing configuration *)

Section missing_configuration.

Implicit Types (w : World) (t : Transaction.t).

Lemma listen_run w :
  ∃ port c,
    listen w = (mkWorld (env w) (supabase w) (store w) (postgres w) (now w) (script w) c,
                Fulfilled port)
    ∧ url_line w ∈ c ∧ key_line w ∈ c.
Proof.
  eexists _, _. split; [reflexivity|]. unfold url_line, key_line.
  split; set_solver.
Qed.

Lemma insertTransaction_missing t w :
  credentials_set w = false →
  insertTransaction t w = (w, Rejected (mkError missing_credentials)).
Proof.
  intros Hc. unfold insertTransaction.
  apply bind_Rejected, getSupabaseClient_missing, Hc.
Qed.

Lemma getAccountBalance_missing accountId w :
  credentials_set w = false →
  getAccountBalance accountId w = (w, Rejected (mkError missing_credentials)).
Proof.
  intros Hc. unfold getAccountBalance.
  apply bind_Rejected, getSupabaseClient_missing, Hc.
Qed.

Lemma checkAndReserveBalance_missing accountId requested w :
  credentials_set w = false →
  checkAndReserveBalance accountId requested w
  = (w, Rejected (mkError missing_credentials)).
Proof.
  intros Hc. unfold checkAndReserveBalance.
  apply bind_Rejected, getSupabaseClient_missing, Hc.
Qed.

Lemma switch_type_missing t w :
  credentials_set w = false → valid_type (Transaction.type t) = true →
  ∃ c, switch_type t w
       = (mkWorld (env w) (supabase w) (store w) (postgres w) (now w) (script w) c,
          Rejected (mkError missing_credentials)).
Proof.
  intros Hc Hty. unfold valid_type in Hty.
  apply orb_true_iff in Hty as [Hty|Hty]; [apply orb_true_iff in Hty as [Hty|Hty]|];
    apply bool_decide_eq_true in Hty.
  - rewrite switch_type_deposit by done. unfold deposit_case.
    exists (console w). destruct w.
    apply bind_Rejected, insertTransaction_missing, Hc.
  - rewrite switch_type_withdraw_request by done. unfold withdraw_request_case.
    eexists. erewrite try_catch_Rejected.
    2:{ run (console_log_run _ _ _ _).
        apply bind_Rejected, race_timeout_Rejected, checkAndReserveBalance_missing.
        exact Hc. }
    unfold on_check_error. rewrite bool_decide_eq_false_2 by done. reflexivity.
  - rewrite switch_type_withdraw by done. unfold withdraw_case.
    exists (console w). destruct w.
    apply bind_Rejected, insertTransaction_missing, Hc.
Qed.

Lemma post_transaction_missing t w :
  credentials_set w = false → valid_type (Transaction.type t) = true →
  (post_transaction t w).2
  = Fulfilled (Response.mk 500
      (ServerError "Internal server error" missing_credentials))
  ∧ store (post_transaction t w).1 = store w
  ∧ supabase (post_transaction t w).1 = None.
Proof.
  intros Hc Hty. destruct (post_transaction_switch t w) as [e ->].
  destruct (switch_type_missing t (add_console e w) Hc Hty) as [c Hsw].
  rewrite (try_catch_Rejected _ _ _ _ _ Hsw).
  unfold internal_server_error. simpl. repeat split.
  unfold credentials_set in Hc. by destruct (supabase w).
Qed.

End missing_configuration.

(** C8, as the code has it.  Missing store credentials do not stop the
    start: [listen] succeeds, printing the missing settings as
    [NOT SET], and no client is created.  The error is raised by
    [getSupabaseClient] on the requests: every transaction of a
    recognised type, and every balance query, is answered 500 with the
    message of the missing credentials, the store being left as it was. *)
Theorem missing_configuration_fails_on_requests (t : Transaction.t) (w : World) :
  credentials_set w = false → valid_type (Transaction.type t) = true →
  let started := listen w in
  let r := post_transaction t started.1 in
  (∃ port, started.2 = Fulfilled port)
  ∧ supabase started.1 = None
  ∧ (url_line w ∈ console started.1 ∧ key_line w ∈ console started.1)
  ∧ (url_line w = mkLog LOG "Supabase URL: NOT SET" []
     ∨ key_line w = mkLog LOG "Supabase Key: NOT SET" [])
  ∧ r.2 = Fulfilled (Response.mk 500
            (ServerError "Internal server error" missing_credentials))
  ∧ store r.1 = store w
  ∧ ∀ accountId,
      (get_account accountId started.1).2
      = Fulfilled (Response.mk 500
          (ServerError "Internal server error" missing_credentials)).
Proof.
  intros Hc Hty started r.
  destruct (listen_run w) as (port & c & Hl & Hurl & Hkey).
  assert (Hnone : supabase w = None).
  { unfold credentials_set in Hc. by destruct (supabase w). }
  assert (Hc' : credentials_set started.1 = false).
  { unfold started. rewrite Hl. unfold credentials_set in *. simpl.
    by rewrite Hnone in *. }
  destruct (post_transaction_missing t started.1 Hc' Hty) as (Hp & Hs & _).
  fold r in Hp, Hs. unfold started in *. rewrite Hl in *. simpl in *.
  split; [by eexists|]. split; [done|]. split; [done|]. split.
  { unfold url_line, key_line, configured. unfold credentials_set in Hc.
    rewrite Hnone in Hc. apply andb_false_iff in Hc as [-> | ->]; auto. }
  split; [done|]. split; [done|]. intros accountId. unfold get_account.
  erewrite try_catch_Rejected;
    [|apply bind_Rejected, getAccountBalance_missing, Hc'].
  reflexivity.
Qed.

Lemma missing_configuration_fails_on_requests_witness :
  credentials_set (boot unconfigured_env) = false
  ∧ valid_type (Transaction.type (sample "t1" "deposit" 100)) = true
  ∧ (listen (boot unconfigured_env)).2 = Fulfilled "3000"
  ∧ status_of (post_transaction (sample "t1" "deposit" 100)
                 (listen (boot unconfigured_env)).1) = Some 500.
Proof.
  assert (Hc : credentials_set (boot unconfigured_env) = false) by done.
  assert (Hty : valid_type (Transaction.type (sample "t1" "deposit" 100)) = true)
    by done.
  destruct (missing_configuration_fails_on_requests _ _ Hc Hty)
    as (_ & _ & _ & _ & Hp & _ & _).
  split; [exact Hc|]. split; [exact Hty|]. split; [reflexivity|].
  unfold status_of. rewrite Hp. reflexivity.
Defined.

(** C8, as stated, fails: a process without credentials starts, and the
    first request is the one that fails. *)
Lemma missing_configuration_does_not_stop_startup :
  (listen (boot unconfigured_env)).2 = Fulfilled "3000"
  ∧ (post_transaction (sample "t1" "deposit" 100)
       (listen (boot unconfigured_env)).1).2
    = Fulfilled (Response.mk 500
        (ServerError "Internal server error" missing_credentials)).
Proof. split; vm_compute; reflexivity. Qed.

(** ** The reservation check when the RPC fails *)

Section check_failure.

Implicit Types (w : World) (t : Transaction.t).

Lemma getAccountBalance_answers accountId w rs s c :
  getAccountBalance accountId (during w (Answers :: rs) s c)
  = (during w rs s c, Fulfilled (balance_in s accountId)).
Proof.
  unfold getAccountBalance.
  run (getSupabaseClient_during _ _ _ _).
  run (call_answers _ _ _ _ _).
  unfold select_balance, balance_in.
  destruct (accounts s !! accountId) as [a|]; simpl; [|done].
  unfold ret. by case_bool_decide as Hz; [rewrite Hz|].
Qed.

Lemma getAccountBalance_fails accountId w f msg rs s c :
  getAccountBalance accountId (during w (Fails f msg :: rs) s c)
  = (during w rs s c,
     Rejected (mkError ("Failed to get account balance: " +:+ msg))).
Proof.
  unfold getAccountBalance.
  run (getSupabaseClient_during _ _ _ _).
  run (call_fails _ _ _ _ _ _ _).
  by destruct f.
Qed.

(** On an error of the RPC the function prints the warning and hands
    over to the fallback. *)
Lemma checkAndReserveBalance_fails accountId requested w f msg rs :
  credentials_set w = true → script w = Fails f msg :: rs →
  checkAndReserveBalance accountId requested w
  = checkAndReserveBalanceFallback accountId requested
      (during w rs (store w) (console w ++ [rpc_warning msg])).
Proof.
  intros Hc Hs. unfold checkAndReserveBalance.
  run (getSupabaseClient_set _ Hc). rewrite Hs.
  run (call_fails _ _ _ _ _ _ _). cbn [Result.error PostgrestError.message].
  by run (console_log_after _ _ _ _ _ _ _).
Qed.

Lemma checkAndReserveBalanceFallback_fails accountId requested w n f msg rs s c :
  (n ≤ 2)%nat →
  checkAndReserveBalanceFallback accountId requested
    (during w (replicate n Answers ++ Fails f msg :: rs) s c)
  = (during w rs s c, Rejected (mkError (fallback_prefix n +:+ msg))).
Proof.
  intros Hn. unfold checkAndReserveBalanceFallback.
  run (getSupabaseClient_during _ _ _ _).
  destruct n as [|[|[|n]]]; [| | |lia]; cbn [replicate app].
  - apply bind_Rejected, getAccountBalance_fails.
  - run (getAccountBalance_answers _ _ _ _ _).
    by run (call_fails _ _ _ _ _ _ _).
  - run (getAccountBalance_answers _ _ _ _ _).
    run (call_answers _ _ _ _ _).
    rewrite select_transactions_result. cbn [fst snd Result.error].
    by run (call_fails _ _ _ _ _ _ _).
Qed.

Lemma fallback_prefix_not_timeout n msg :
  fallback_prefix n +:+ msg ≠ "Timeout".
Proof. by destruct n as [|[|n]]. Qed.

End check_failure.


(** ** Deposits and withdraws whatever the store answers *)

Section any_world.

Implicit Types (w : World) (t : Transaction.t).

Lemma sat_bind {A B} (m : Async A) (k : A → Async B) w Q :
  sat m w (λ w1 p1,
    match p1 with
    | Fulfilled a => sat (k a) w1 Q
    | Rejected e => Q w1 (Rejected e)
    | Pending => Q w1 Pending
    end) →
  sat (bind m k) w Q.
Proof. unfold sat, bind. by destruct (m w) as [w1 [a|e|]]. Qed.

Lemma sat_weaken {A} (m : Async A) w (Q Q' : World → Promise A → Prop) :
  sat m w Q → (∀ w' p, Q w' p → Q' w' p) → sat m w Q'.
Proof. unfold sat. auto. Qed.

Lemma sat_try_catch {A} (m : Async A) h w Q :
  sat m w (λ w1 p1,
    match p1 with
    | Rejected e => sat (h e) w1 Q
    | p => Q w1 p
    end) →
  sat (try_catch m h) w Q.
Proof. unfold sat, try_catch. by destruct (m w) as [w1 [a|e|]]. Qed.

Lemma sat_getSupabaseClient w (Q : World → Promise SupabaseClient → Prop) :
  (credentials_set w = false → Q w (Rejected (mkError missing_credentials))) →
  (credentials_set w = true →
   Q (during w (script w) (store w) (console w)) (Fulfilled (client_of w))) →
  sat getSupabaseClient w Q.
Proof.
  intros Hmissing Hset. unfold sat. destruct (credentials_set w) eqn:Hc.
  - rewrite getSupabaseClient_set by done. auto.
  - rewrite getSupabaseClient_missing by done. auto.
Qed.

Lemma sat_call {A} (run : Postgres.t → Z → Store → Store * Result.t A) w rs s c
    (Q : World → Promise (Result.t A) → Prop) :
  (∀ rs', Q (during w rs' (run (postgres w) (now w) s).1 c) (Fulfilled (run (postgres w) (now w) s).2)) →
  (∀ rs' f msg,
     Q (during w rs' s c)
       (Fulfilled (Result.mk None (Some (PostgrestError.mk (sqlstate f) msg))))) →
  (∀ rs', Q (during w rs' s c) Pending) →
  sat (call run) (during w rs s c) Q.
Proof.
  intros Hanswers Hfails Hsilent. unfold sat. destruct rs as [|[|f msg|] rs].
  - rewrite call_after. apply Hanswers.
  - rewrite call_answers. apply Hanswers.
  - rewrite call_fails. apply Hfails.
  - rewrite call_silent. apply Hsilent.
Qed.

Lemma getAccountBalance_any accountId w :
  sat (getAccountBalance accountId) w (λ w' p,
    store w' = store w ∧ ∀ b, p = Fulfilled b → b = balance_of w accountId).
Proof.
  unfold getAccountBalance.
  apply sat_bind, sat_getSupabaseClient; intros Hc; [done|].
  apply sat_bind, sat_call.
  - intros rs'. unfold sat, select_balance, balance_of, balance_in. simpl.
    destruct (accounts (store w) !! accountId) as [a|]; simpl.
    + split; [done|]. intros b [= <-]. by case_bool_decide.
    + split; [done|]. by intros b [= <-].
  - intros rs' f msg. unfold sat. simpl. by destruct f.
  - done.
Qed.

Lemma updateAccountBalance_any accountId newBalance w :
  sat (updateAccountBalance accountId newBalance) w (λ w' p,
    transactions (store w') = transactions (store w)
    ∧ ((p = Fulfilled tt
        ∧ balance_of w' accountId = newBalance
        ∧ ∀ a, a ≠ accountId → balance_of w' a = balance_of w a)
       ∨ (p ≠ Fulfilled tt ∧ store w' = store w))).
Proof.
  unfold updateAccountBalance.
  apply sat_bind, sat_getSupabaseClient; intros Hc.
  { split; [done|]. by right. }
  apply sat_bind, sat_call.
  - intros rs'. unfold sat. simpl. split; [done|]. left. split; [done|].
    unfold balance_of. simpl.
    change (mkStore _ _) with (with_balance accountId newBalance (now w) (store w)).
    split; [apply balance_in_with_balance|].
    intros a Ha. by apply balance_in_with_balance_ne.
  - intros rs' f msg. unfold sat. simpl. split; [done|]. by right.
  - intros rs'. simpl. split; [done|]. by right.
Qed.

Lemma mutate_any op accountId amount w :
  sat (mutate op accountId amount) w (λ w' p,
    transactions (store w') = transactions (store w)
    ∧ ((p = Fulfilled tt
        ∧ balance_of w' accountId = new_balance op (balance_of w accountId) amount
        ∧ ∀ a, a ≠ accountId → balance_of w' a = balance_of w a)
       ∨ (p ≠ Fulfilled tt ∧ store w' = store w))).
Proof.
  assert (∀ g : Z → Z,
    sat (await client := getSupabaseClient in
         await currentBalance := getAccountBalance accountId in
         updateAccountBalance accountId (g currentBalance)) w (λ w' p,
      transactions (store w') = transactions (store w)
      ∧ ((p = Fulfilled tt
          ∧ balance_of w' accountId = g (balance_of w accountId)
          ∧ ∀ a, a ≠ accountId → balance_of w' a = balance_of w a)
         ∨ (p ≠ Fulfilled tt ∧ store w' = store w)))) as Hg.
  { intros g. apply sat_bind, sat_getSupabaseClient; intros Hc.
    { split; [done|]. by right. }
    apply sat_bind. eapply sat_weaken; [apply getAccountBalance_any|].
    intros w1 [b|e|] [Hs1 Hb1]; simpl in Hs1; try (rewrite Hs1; split; [done|by right]).
    rewrite (Hb1 b eq_refl).
    eapply sat_weaken; [apply updateAccountBalance_any|].
    unfold balance_of. rewrite Hs1. simpl. intros w2 p [Ht Hcases].
    split; [done|]. destruct Hcases as [?|[Hp Hs2]]; [by left|right].
    by rewrite Hs2. }
  destruct op; simpl.
  - apply (Hg (λ b, Number.add b amount)).
  - apply (Hg (λ b, Number.sub b amount)).
Qed.

Lemma sat_console_log l txt fs w (Q : World → Promise unit → Prop) :
  Q (add_console (mkLog l txt fs) w) (Fulfilled tt) → sat (console_log l txt fs) w Q.
Proof. done. Qed.

Lemma insertTransaction_any t w :
  sat (insertTransaction t) w (λ w' p,
    accounts (store w') = accounts (store w)
    ∧ ((p = Fulfilled tt
        ∧ transactions (store w')
          = (transactions (store w) ++ [stored t (now w)])%list)
       ∨ (transactions (store w') = transactions (store w)
          ∧ (p = Fulfilled tt → Transaction.id t ∈ log_ids w)))).
Proof.
  unfold insertTransaction.
  apply sat_bind, sat_getSupabaseClient; intros Hc.
  { split; [done|]. by right. }
  apply sat_bind, sat_call.
  - intros rs'. unfold insert_into_transactions.
    cbn [DatabaseTransaction.id DatabaseTransaction.type DatabaseTransaction.timestamp].
    destruct (Postgres.timestamptz_in _ _); cbn [negb];
      [destruct (valid_type _); [destruct (existsb _ _) eqn:Hex|]|]; unfold sat; simpl.
    + split; [done|]. right. split; [done|]. intros _. by apply recorded_iff.
    + split; [done|]. by left.
    + split; [done|]. by right.
    + split; [done|]. by right.
  - intros rs' f msg. unfold sat. simpl. destruct f; simpl; (split; [done|by right]).
  - intros rs'. split; [done|]. by right.
Qed.

Lemma log_step_store t w w1 w2 :
  store w2 = store w1 → log_step t w w1 → log_step t w w2.
Proof. unfold log_step. by intros ->. Qed.

Lemma balance_step_store op t w w1 w2 :
  store w2 = store w1 → balance_step op t w w1 → balance_step op t w w2.
Proof. unfold balance_step, balance_of, log_ids. by intros ->. Qed.

(** The shape shared by the [deposit] and the [withdraw] case: insert,
    log, mutate the balance, read it back, finish without touching the
    store. *)
Lemma mutation_case_any op t l txt fs (finish : Z → Async Response.t) w :
  (∀ b w', sat (finish b) w' (λ w'' _, store w'' = store w')) →
  sat (insertTransaction t ;;
       console_log l txt fs ;;
       mutate op (Transaction.accountId t) (Transaction.amount t) ;;
       await newBalance := getAccountBalance (Transaction.accountId t) in
       finish newBalance) w
    (λ w' _, log_step t w w' ∧ balance_step op t w w').
Proof.
  intros Hfinish.
  apply sat_bind. eapply sat_weaken; [apply insertTransaction_any|].
  intros w1 p1 [Hacc Hlog].
  assert (Hstay : log_step t w w1 ∧ balance_step op t w w1).
  { split.
    - destruct Hlog as [[_ Happ]|[Hsame _]]; [by right|by left].
    - left. intros a. by apply balance_in_accounts. }
  destruct p1 as [[]|e|]; [|done..].
  assert (Hin : Transaction.id t ∈ log_ids w1).
  { unfold log_ids. destruct Hlog as [[_ ->]|[-> Hin]]; [|by apply Hin].
    rewrite fmap_app. apply elem_of_app. right. apply list_elem_of_here. }
  apply sat_bind, sat_console_log.
  apply sat_bind. eapply sat_weaken; [apply mutate_any|].
  intros w3 p3 [Htx Hcases].
  assert (Hdone : log_step t w w3 ∧ balance_step op t w w3).
  { split.
    - unfold log_step. rewrite Htx. apply Hstay.
    - destruct Hcases as [(_ & Hb & Ho)|[_ Hs3]].
      + right. unfold log_ids. rewrite Htx. split; [done|].
        unfold balance_of in *. simpl in *.
        rewrite Hb, (balance_in_accounts _ _ _ Hacc). split; [done|].
        intros a Ha. rewrite (Ho a Ha). by apply balance_in_accounts.
      + apply (balance_step_store _ _ _ w1); [done|apply Hstay]. }
  destruct p3 as [[]|e|]; [|done..].
  apply sat_bind. eapply sat_weaken; [apply getAccountBalance_any|].
  intros w4 p4 [Hs4 _].
  assert (Hread : log_step t w w4 ∧ balance_step op t w w4).
  { destruct Hdone as [Hl Hb]. split.
    - by apply (log_step_store _ _ w3).
    - by apply (balance_step_store _ _ _ w3). }
  destruct p4 as [b|e|]; [|done..].
  eapply sat_weaken; [apply Hfinish|]. intros w5 p5 Hs5. simpl in Hs5.
  destruct Hread as [Hl Hb]. split.
  - by apply (log_step_store _ _ w4).
  - by apply (balance_step_store _ _ _ w4).
Qed.

Lemma deposit_case_any t w :
  sat (deposit_case t) w (λ w' _, log_step t w w' ∧ balance_step Increment t w w').
Proof. apply (mutation_case_any Increment). done. Qed.

Lemma withdraw_case_any t w :
  sat (withdraw_case t) w (λ w' _, log_step t w w' ∧ balance_step Decrement t w w').
Proof. apply (mutation_case_any Decrement). done. Qed.

Lemma post_transaction_any op t w :
  op = Increment ∧ Transaction.type t = "deposit"
  ∨ op = Decrement ∧ Transaction.type t = "withdraw" →
  sat (post_transaction t) w (λ w' _, log_step t w w' ∧ balance_step op t w w').
Proof.
  intros Hty. unfold post_transaction.
  apply sat_try_catch, sat_bind, sat_console_log.
  assert (sat (switch_type t)
            (add_console
               (mkLog LOG ("Processing transaction: " +:+ Transaction.id t)
                  [("type", JStr (Transaction.type t));
                   ("accountId", JStr (Transaction.accountId t));
                   ("amount", JNum (Transaction.amount t))]) w)
            (λ w' _, log_step t w w' ∧ balance_step op t w w')) as Hcase.
  { destruct Hty as [[-> Hty]|[-> Hty]].
    - rewrite switch_type_deposit by done.
      eapply sat_weaken; [apply deposit_case_any|]. intros w' p Hsteps. exact Hsteps.
    - rewrite switch_type_withdraw by done.
      eapply sat_weaken; [apply withdraw_case_any|]. intros w' p Hsteps. exact Hsteps. }
  eapply sat_weaken; [apply Hcase|].
  by intros w1 [resp|e|] Hsteps.
Qed.

End any_world.






(** ** Balance mutations in flight at the same time *)

Section interleaving.

Implicit Types (w : World) (accountId : string).

(** Resuming a call twice, with nothing in between, is the call. *)
Lemma resume_twice op accountId amount w :
  (let '(w1, t1) := resume (Called op accountId amount) w in resume t1 w1)
  = (let '(w2, p) := mutate op accountId amount w in (w2, Settled p)).
Proof.
  destruct op; simpl; unfold incrementAccountBalance, decrementAccountBalance, bind.
  all: destruct (getSupabaseClient w) as [w0 [cl|e|]]; try done.
  all: destruct (getAccountBalance accountId w0) as [w1 [b|e|]]; try done.
  all: simpl; by destruct (updateAccountBalance _ _ _).
Qed.

Lemma resume_Called_ready op accountId amount w :
  ready w →
  resume (Called op accountId amount) w
  = (after w (store w) (console w),
     Holding accountId (new_balance op (balance_of w accountId) amount)).
Proof.
  intros Hw. unfold resume.
  rewrite (bind_Fulfilled _ _ _ _ _ (getSupabaseClient_ready w Hw)).
  by rewrite (getAccountBalance_ready _ _ (ready_after _ _ _)).
Qed.

Lemma resume_Holding_ready accountId newBalance w :
  ready w →
  resume (Holding accountId newBalance) w
  = (after w (with_balance accountId newBalance (now w) (store w)) (console w),
     Settled (Fulfilled tt)).
Proof. intros Hw. unfold resume. by rewrite updateAccountBalance_ready. Qed.

(** Deposits that run one after the other are added one after the
    other. *)
Lemma deposits_in_turn accountId (amounts : list Z) w :
  ready w →
  balance_of (foldl (λ w amount, (mutate Increment accountId amount w).1) w amounts)
    accountId
  = foldl Number.add (balance_of w accountId) amounts.
Proof.
  revert w. induction amounts as [|amount amounts IH]; intros w Hw;
    cbn [foldl]; [done|].
  rewrite mutate_ready by done. cbn [fst]. rewrite IH by apply ready_after.
  unfold balance_of at 1. cbn [during store].
  by rewrite balance_in_with_balance.
Qed.

End interleaving.

(** C4, as the code has it.  Two deposits on the same account whose
    reads both come before either write lose an update: both calls
    return, and the balance has grown by the amount of the deposit that
    wrote last only, where the same deposits run one after the other
    are both added.  [incrementAccountBalance] reads the balance, then
    writes the sum; nothing holds the row between the two calls.  (The
    sums are JavaScript's; within [2^53] they are the exact ones.) *)
Theorem interleaved_deposits_lose_an_update (accountId : string) (x y : Z)
    (w : World) :
  ready w →
  let tasks := [Called Increment accountId x; Called Increment accountId y] in
  let r := interleave [0; 1; 0; 1]%nat tasks w in
  let B := balance_of w accountId in
  r.2 = [Settled (Fulfilled tt); Settled (Fulfilled tt)]
  ∧ balance_of r.1 accountId = Number.add B y
  ∧ balance_of (interleave [0; 0; 1; 1]%nat tasks w).1 accountId
    = Number.add (Number.add B x) y
  ∧ (Number.safe (B + y) → balance_of r.1 accountId = B + y)
  ∧ (Number.safe (B + x) → Number.safe (B + x + y) →
     balance_of (interleave [0; 0; 1; 1]%nat tasks w).1 accountId = B + x + y).
Proof.
  intros Hw tasks r B. unfold r, tasks, B. cbn [interleave lookup list_lookup].
  repeat (first [ rewrite (resume_Called_ready _ _ _ _ Hw)
                | rewrite (resume_Called_ready _ _ _ _ (ready_after _ _ _))
                | rewrite (resume_Holding_ready _ _ _ (ready_after _ _ _)) ];
          cbn [interleave insert list_insert lookup list_lookup]).
  cbn [fst snd]. unfold balance_of. cbn [during store now].
  rewrite !balance_in_with_balance. cbn [new_balance].
  split; [done|]. split; [done|]. split; [done|]. split.
  - intros Hy. by apply add_safe.
  - intros Hx Hxy. rewrite (add_safe _ x) by done. by apply add_safe.
Qed.

Lemma interleaved_deposits_lose_an_update_witness :
  ready (boot configured_env)
  ∧ balance_of (interleave [0; 1; 0; 1]%nat
                  [Called Increment "acc1" 100; Called Increment "acc1" 50]
                  (boot configured_env)).1 "acc1" = 0 + 50.
Proof.
  assert (Hw : ready (boot configured_env)) by done.
  split; [exact Hw|].
  destruct (interleaved_deposits_lose_an_update "acc1" 100 50 _ Hw)
    as (_ & _ & _ & Hlost & _).
  apply Hlost. vm_compute. discriminate.
Defined.


(** * Further properties of the code *)

(** ** The pending amount as rows are added *)

Section pending_amount_growth.

Implicit Types (rows : list DatabaseTransaction.t) (accountId : string)
  (r x : DatabaseTransaction.t).

Lemma total_app (xs ys : list Z) :
  foldr Z.add 0 (xs ++ ys) = foldr Z.add 0 xs + foldr Z.add 0 ys.
Proof. induction xs as [|z xs IH]; simpl; lia. Qed.

Lemma pending_total_app rows r accountId :
  Spec.pending_total (rows ++ [r]) accountId
  = foldr Z.add 0
      (DatabaseTransaction.amount <$> filter (Spec.pending (rows ++ [r]) accountId) rows)
    + (if decide (Spec.pending (rows ++ [r]) accountId r)
       then DatabaseTransaction.amount r else 0).
Proof.
  unfold Spec.pending_total. rewrite filter_app, fmap_app, total_app. f_equal.
  rewrite filter_cons, filter_nil. destruct (decide _); simpl; lia.
Qed.

(** A row that is not a withdraw resolves nothing. *)
Lemma pending_app_not_withdraw rows r accountId x :
  DatabaseTransaction.type r ≠ "withdraw" →
  Spec.pending (rows ++ [r]) accountId x ↔ Spec.pending rows accountId x.
Proof.
  intros Hty. unfold Spec.pending.
  rewrite Exists_app, Exists_cons, Exists_nil. unfold Spec.resolves at 2. tauto.
Qed.

Lemma total_filter_nil {A} (P : A → Prop) `{∀ y, Decision (P y)} (g : A → Z)
    (l : list A) :
  (∀ y, y ∈ l → ¬ P y) → foldr Z.add 0 (g <$> filter P l) = 0.
Proof.
  intros Hno. induction l as [|y l IH]; [done|].
  rewrite filter_cons. destruct (decide (P y)) as [HP|HP].
  - destruct (Hno y); [apply list_elem_of_here|done].
  - apply IH. intros y' Hy. apply Hno. by apply list_elem_of_further.
Qed.

End pending_amount_growth.

(** A withdraw_request that enters the log reserves its amount: when no
    withdraw of its account is at or after it, the pending amount of the
    account grows by exactly the amount of the request. *)
Theorem logged_request_is_pending (rows : list DatabaseTransaction.t)
    (r : DatabaseTransaction.t) :
  DatabaseTransaction.type r = "withdraw_request" →
  ¬ Exists (λ w, Spec.resolves w r) rows →
  Sql.pending_amount (rows ++ [r]) (DatabaseTransaction.account_id r)
  = Sql.pending_amount rows (DatabaseTransaction.account_id r)
    + DatabaseTransaction.amount r.
Proof.
  intros Hty Hno. rewrite !sql_pending_amount_spec, pending_total_app.
  assert (Hnw : DatabaseTransaction.type r ≠ "withdraw") by (by rewrite Hty).
  rewrite decide_True.
  2:{ apply pending_app_not_withdraw; [done|]. by repeat split. }
  f_equal. unfold Spec.pending_total. do 2 f_equal.
  apply list_filter_iff. intros x. by apply pending_app_not_withdraw.
Qed.

(** A withdraw that enters the log clears the pending amount of its
    account: every request of the account inserted up to then is
    resolved by it, whatever the amounts. *)
Theorem withdraw_clears_pending (rows : list DatabaseTransaction.t)
    (wd : DatabaseTransaction.t) (time : Z) :
  DatabaseTransaction.type wd = "withdraw" →
  DatabaseTransaction.created_at wd = Some time →
  Forall well_formed_row rows → not_after time rows →
  Sql.pending_amount (rows ++ [wd]) (DatabaseTransaction.account_id wd) = 0.
Proof.
  intros Hty Hat Hwf Hbefore. rewrite sql_pending_amount_spec.
  unfold Spec.pending_total. apply total_filter_nil.
  intros x Hx (Hxty & Hxacc & Hno). apply Hno.
  apply elem_of_app in Hx as [Hx|Hx].
  - apply Exists_app. right. apply Exists_cons. left.
    split; [done|]. split; [done|]. rewrite Hat.
    unfold not_after in Hbefore. rewrite Forall_forall in Hwf, Hbefore.
    destruct (Hwf x Hx) as [_ [tx Htx]]. rewrite Htx. simpl.
    by apply (Hbefore x Hx).
  - apply list_elem_of_singleton in Hx as ->. by rewrite Hty in Hxty.
Qed.

(** The pending amount of an account is computed from the rows of that
    account alone: rows of other accounts can be dropped from the log,
    or added to it, without changing it. *)
Theorem pending_amount_of_own_rows (rows : list DatabaseTransaction.t)
    (accountId : string) :
  Sql.pending_amount rows accountId
  = Sql.pending_amount
      (filter (λ r, DatabaseTransaction.account_id r = accountId) rows) accountId
  ∧ ∀ r, DatabaseTransaction.account_id r ≠ accountId →
         Sql.pending_amount (rows ++ [r]) accountId = Sql.pending_amount rows accountId.
Proof.
  assert (Hown : ∀ rows,
    Sql.pending_amount rows accountId
    = Sql.pending_amount
        (filter (λ r, DatabaseTransaction.account_id r = accountId) rows) accountId).
  { clear rows. intros rows. rewrite !sql_pending_amount_spec.
    unfold Spec.pending_total. rewrite list_filter_filter. do 2 f_equal.
    apply list_filter_iff. intros x. unfold Spec.pending.
    rewrite !Exists_exists. split.
    - intros (Hty & Hacc & Hno). split; [|done]. split; [done|]. split; [done|].
      intros (w & Hw & Hres). apply Hno. exists w. split; [|done].
      by apply list_elem_of_filter in Hw as [_ Hw].
    - intros [(Hty & Hacc & Hno) _]. split; [done|]. split; [done|].
      intros (w & Hw & Hres). apply Hno. exists w. split; [|done].
      apply list_elem_of_filter. split; [|done].
      destruct Hres as (_ & Hwacc & _). congruence. }
  split; [apply Hown|]. intros r Hr.
  rewrite (Hown (rows ++ [r])%list), (Hown rows). f_equal.
  rewrite filter_app, filter_cons, filter_nil, decide_False by done.
  by rewrite app_nil_r.
Qed.

(** ** What a request does to the log and the balances, whatever the
       store answers *)

Section requests_any_world.

Implicit Types (w : World) (t : Transaction.t).

Lemma quiet_refl w : quiet w w.
Proof. by repeat split. Qed.

Lemma quiet_trans w1 w2 w3 : quiet w1 w2 → quiet w2 w3 → quiet w1 w3.
Proof.
  intros (Hn1 & Ht1 & Hb1) (Hn2 & Ht2 & Hb2).
  split; [congruence|]. split; [congruence|]. intros a. by rewrite Hb2.
Qed.

Lemma quiet_store w w' : store w' = store w → now w' = now w → quiet w w'.
Proof. intros Hs Hn. unfold quiet, balance_of. by rewrite Hs. Qed.

Lemma sat_ret {A} (a : A) w (Q : World → Promise A → Prop) :
  Q w (Fulfilled a) → sat (ret a) w Q.
Proof. done. Qed.

Lemma sat_throw {A} e w (Q : World → Promise A → Prop) :
  Q w (Rejected e) → sat (throw e) w Q.
Proof. done. Qed.

Lemma sat_race_timeout {A} (p : Async A) w (Q : World → Promise A → Prop) :
  sat p w (λ w1 p1,
    match p1 with
    | Pending => Q w1 (Rejected (mkError "Timeout"))
    | _ => Q w1 p1
    end) →
  sat (race_timeout p) w Q.
Proof. unfold sat, race_timeout. by destruct (p w) as [w1 [a|e|]]. Qed.

(** A call in any world: the store is the one the statement leaves, or
    the one it found. *)
Lemma sat_call_any {A} (run : Postgres.t → Z → Store → Store * Result.t A) w
    (Q : World → Promise (Result.t A) → Prop) :
  Q (set_store (run (postgres w) (now w) (store w)).1 (pop w)) (Fulfilled (run (postgres w) (now w) (store w)).2) →
  (∀ f msg,
     Q (pop w) (Fulfilled (Result.mk None (Some (PostgrestError.mk (sqlstate f) msg))))) →
  Q (pop w) Pending →
  sat (call run) w Q.
Proof.
  intros Hanswers Hfails Hsilent. unfold sat, call.
  destruct (next_reply w) as [|f msg|]; [|by apply Hfails|done].
  by destruct (run (postgres w) (now w) (store w)).
Qed.

Lemma getSupabaseClient_quiet w :
  sat getSupabaseClient w (λ w' _, quiet w w').
Proof. by apply sat_getSupabaseClient; intros _; apply quiet_store. Qed.

Lemma getAccountBalance_quiet accountId w :
  sat (getAccountBalance accountId) w (λ w' _, quiet w w').
Proof.
  unfold getAccountBalance.
  apply sat_bind, sat_getSupabaseClient; intros Hc; [apply quiet_refl|].
  apply sat_bind, sat_call.
  - intros rs'. unfold select_balance.
    destruct (accounts (store w) !! accountId) as [a|]; simpl; by apply quiet_store.
  - intros rs' f msg. simpl. destruct f; by apply quiet_store.
  - intros rs'. by apply quiet_store.
Qed.

Lemma checkAndReserveBalanceFallback_quiet accountId requested w :
  sat (checkAndReserveBalanceFallback accountId requested) w (λ w' _, quiet w w').
Proof.
  unfold checkAndReserveBalanceFallback.
  apply sat_bind. eapply sat_weaken; [apply getSupabaseClient_quiet|].
  intros w0 [cl|e|] Hq0; [|done..].
  apply sat_bind. eapply sat_weaken; [apply getAccountBalance_quiet|].
  intros w1 [b|e|] Hq1; [|by apply (quiet_trans _ w0)..].
  assert (Hq : quiet w w1) by (by apply (quiet_trans _ w0)).
  assert (Hpop : quiet w (pop w1)).
  { apply (quiet_trans _ w1); [done|]. by apply quiet_store. }
  apply sat_bind, sat_call_any; [|done..].
  rewrite select_transactions_result. cbn [fst snd Result.error].
  assert (Hq2 : quiet w (set_store (store w1) (pop w1))).
  { apply (quiet_trans _ w1); [done|]. by apply quiet_store. }
  assert (Hpop2 : quiet w (pop (set_store (store w1) (pop w1)))).
  { apply (quiet_trans _ w1); [done|]. by apply quiet_store. }
  apply sat_bind, sat_call_any; [|done..].
  rewrite select_transactions_result. cbn [fst snd Result.error].
  apply sat_ret. apply (quiet_trans _ w1); [done|]. by apply quiet_store.
Qed.

Lemma rpc_check_withdraw_request_eq accountId requested pg time s :
  rpc_check_withdraw_request accountId requested pg time s
  = ((Sql.check_withdraw_request time s accountId requested).1,
     Result.mk (Some (Sql.check_withdraw_request time s accountId requested).2) None).
Proof.
  unfold rpc_check_withdraw_request. by destruct (Sql.check_withdraw_request _ _ _ _).
Qed.

Lemma checkAndReserveBalance_quiet accountId requested w :
  sat (checkAndReserveBalance accountId requested) w (λ w' _, quiet w w').
Proof.
  unfold checkAndReserveBalance.
  apply sat_bind. eapply sat_weaken; [apply getSupabaseClient_quiet|].
  intros w0 [cl|e|] Hq0; [|done..].
  apply sat_bind, sat_call_any.
  - rewrite rpc_check_withdraw_request_eq. cbn [fst snd Result.error]. apply sat_ret.
    apply (quiet_trans _ w0); [done|]. split; [done|]. split.
    + apply sql_check_transactions.
    + intros a. apply sql_check_balance.
  - intros f msg. cbn [Result.error].
    apply sat_bind, sat_console_log.
    eapply sat_weaken; [apply checkAndReserveBalanceFallback_quiet|].
    intros w2 p Hq2. apply (quiet_trans _ w0); [done|].
    eapply quiet_trans; [|exact Hq2]. by apply quiet_store.
  - apply (quiet_trans _ w0); [done|]. by apply quiet_store.
Qed.

End requests_any_world.

Section handlers_any_world.

Implicit Types (w : World) (t : Transaction.t).

Lemma insertTransaction_extends t w :
  sat (insertTransaction t) w (λ w' p,
    now w' = now w
    ∧ accounts (store w') = accounts (store w)
    ∧ log_extends t w w').
Proof.
  unfold insertTransaction.
  apply sat_bind, sat_getSupabaseClient; intros Hc.
  { split; [done|]. split; [done|]. by left. }
  apply sat_bind, sat_call.
  - intros rs'. unfold insert_into_transactions.
    cbn [DatabaseTransaction.id DatabaseTransaction.type DatabaseTransaction.timestamp].
    destruct (Postgres.timestamptz_in _ _); cbn [negb];
      [destruct (valid_type _) eqn:Hty; [destruct (existsb _ _) eqn:Hex|]|];
      unfold sat; simpl.
    + split; [done|]. split; [done|]. by left.
    + split; [done|]. split; [done|]. right. split; [|done].
      intros Hin. apply recorded_iff in Hin. unfold log_ids in Hin. simpl in Hin.
      congruence.
    + split; [done|]. split; [done|]. by left.
    + split; [done|]. split; [done|]. by left.
  - intros rs' f msg. unfold sat. simpl.
    destruct f; simpl; (split; [done|]; split; [done|]; by left).
  - intros rs'. split; [done|]. split; [done|]. by left.
Qed.

Lemma log_extends_quiet_before t w w0 w' :
  quiet w w0 → log_extends t w0 w' → log_extends t w w'.
Proof.
  intros (Hn & Ht & _). unfold log_extends, log_ids. by rewrite Hn, Ht.
Qed.

Lemma log_extends_transactions t w w1 w2 :
  transactions (store w2) = transactions (store w1) →
  log_extends t w w1 → log_extends t w w2.
Proof. unfold log_extends. by intros ->. Qed.

Lemma log_extends_same t w w' :
  transactions (store w') = transactions (store w) → log_extends t w w'.
Proof. by left. Qed.

(** The [deposit] and the [withdraw] case: the log is extended by the
    insert and by nothing after it, and a response sent from the case is
    a 200. *)
Lemma mutation_case_extends op t l txt fs (finish : Z → Async Response.t) w :
  (∀ b w', sat (finish b) w' (λ w'' p,
     store w'' = store w' ∧ ∀ resp, p = Fulfilled resp → Response.status resp = 200)) →
  sat (insertTransaction t ;;
       console_log l txt fs ;;
       mutate op (Transaction.accountId t) (Transaction.amount t) ;;
       await newBalance := getAccountBalance (Transaction.accountId t) in
       finish newBalance) w
    (λ w' p, log_extends t w w'
             ∧ ∀ resp, p = Fulfilled resp → Response.status resp = 200).
Proof.
  intros Hfinish.
  apply sat_bind. eapply sat_weaken; [apply insertTransaction_extends|].
  intros w1 p1 (_ & _ & Hext). destruct p1 as [[]|e|]; [|done..].
  apply sat_bind, sat_console_log.
  apply sat_bind. eapply sat_weaken; [apply mutate_any|].
  intros w3 p3 [Htx _].
  assert (Hext3 : log_extends t w w3) by (by apply (log_extends_transactions _ _ w1)).
  destruct p3 as [[]|e|]; [|done..].
  apply sat_bind. eapply sat_weaken; [apply getAccountBalance_any|].
  intros w4 p4 [Hs4 _].
  assert (Hext4 : log_extends t w w4).
  { apply (log_extends_transactions _ _ w3); [by rewrite Hs4|done]. }
  destruct p4 as [b|e|]; [|done..].
  eapply sat_weaken; [apply Hfinish|]. intros w5 p5 [Hs5 Hresp]. split; [|done].
  apply (log_extends_transactions _ _ w4); [by rewrite Hs5|done].
Qed.

Lemma deposit_case_extends t w :
  sat (deposit_case t) w (λ w' p,
    log_extends t w w' ∧ ∀ resp, p = Fulfilled resp → Response.status resp = 200).
Proof.
  apply (mutation_case_extends Increment). intros b w'.
  apply sat_bind, sat_console_log, sat_ret. split; [done|]. by intros resp [= <-].
Qed.

Lemma withdraw_case_extends t w :
  sat (withdraw_case t) w (λ w' p,
    log_extends t w w' ∧ ∀ resp, p = Fulfilled resp → Response.status resp = 200).
Proof.
  apply (mutation_case_extends Decrement). intros b w'.
  apply sat_bind, sat_console_log, sat_ret. split; [done|]. by intros resp [= <-].
Qed.

(** The tail of the [withdraw_request] case: only the insert writes. *)
Lemma answer_request_extends t approved w :
  sat (answer_request t approved) w (λ w' p,
    log_extends t w w'
    ∧ (∀ a, balance_of w' a = balance_of w a)
    ∧ ∀ resp, p = Fulfilled resp →
              Response.status resp = (if approved then 201 else 402)).
Proof.
  unfold answer_request.
  apply sat_bind. eapply sat_weaken; [apply getAccountBalance_quiet|].
  intros w1 p1 Hq1.
  assert (Hstay : log_extends t w w1 ∧ ∀ a, balance_of w1 a = balance_of w a).
  { destruct Hq1 as (_ & Ht & Hb). split; [by left|done]. }
  destruct p1 as [b|e|]; [|by destruct Hstay..].
  assert (Hinsert : sat (insertTransaction t) w1 (λ w' p,
            log_extends t w w' ∧ ∀ a, balance_of w' a = balance_of w a)).
  { eapply sat_weaken; [apply insertTransaction_extends|].
    intros w2 p2 (_ & Hacc & Hext). split.
    - by apply (log_extends_quiet_before _ _ w1).
    - intros a. unfold balance_of. rewrite (balance_in_accounts _ _ _ Hacc).
      apply Hstay. }
  destruct approved.
  - apply sat_bind. eapply sat_weaken; [apply Hinsert|].
    intros w2 [[]|e|] [Hext Hbal]; [|done..].
    apply sat_bind, sat_console_log, sat_ret. split; [done|]. split; [done|].
    by intros resp [= <-].
  - apply sat_bind. eapply sat_weaken; [apply Hinsert|].
    intros w2 [[]|e|] [Hext Hbal]; [|done..].
    apply sat_bind, sat_console_log, sat_ret. split; [done|]. split; [done|].
    by intros resp [= <-].
Qed.

Lemma withdraw_request_case_extends t w :
  sat (withdraw_request_case t) w (λ w' p,
    log_extends t w w'
    ∧ (∀ a, balance_of w' a = balance_of w a)
    ∧ ∀ resp, p = Fulfilled resp → Response.status resp ∈ [201; 402]).
Proof.
  unfold withdraw_request_case.
  apply sat_try_catch, sat_bind, sat_console_log.
  apply sat_bind, sat_race_timeout.
  eapply sat_weaken; [apply checkAndReserveBalance_quiet|].
  intros w1 p1 Hq1. simpl in Hq1.
  assert (Hstay : log_extends t w w1 ∧ ∀ a, balance_of w1 a = balance_of w a).
  { destruct Hq1 as (_ & Ht & Hb). split; [by left|done]. }
  assert (Hcatch : ∀ e, sat (on_check_error t e) w1 (λ w' p,
            log_extends t w w'
            ∧ (∀ a, balance_of w' a = balance_of w a)
            ∧ ∀ resp, p = Fulfilled resp → Response.status resp ∈ [201; 402])).
  { intros e. unfold on_check_error. destruct (bool_decide _).
    - apply sat_bind, sat_console_log, sat_ret.
      split; [apply Hstay|]. split; [apply Hstay|].
      intros resp [= <-]. simpl. rewrite !elem_of_cons. tauto.
    - apply sat_throw. split; [apply Hstay|]. split; [apply Hstay|]. done. }
  destruct p1 as [approved|e|]; [|apply Hcatch..].
  eapply sat_weaken; [apply answer_request_extends|].
  intros w2 p2 (Hext & Hbal & Hresp).
  assert (Hext2 : log_extends t w w2).
  { apply (log_extends_quiet_before _ _ w1); [|done].
    destruct Hq1 as (Hn & Ht & Hb). by repeat split. }
  assert (Hbal2 : ∀ a, balance_of w2 a = balance_of w a).
  { intros a. rewrite Hbal. apply Hstay. }
  destruct p2 as [resp|e|].
  - split; [done|]. split; [done|]. intros resp' [= <-].
    rewrite (Hresp resp eq_refl). destruct approved; rewrite !elem_of_cons; tauto.
  - unfold on_check_error. destruct (bool_decide _).
    + apply sat_bind, sat_console_log, sat_ret. split; [done|]. split; [done|].
      intros resp [= <-]. simpl. rewrite !elem_of_cons. tauto.
    + apply sat_throw. by repeat split.
  - by repeat split.
Qed.

Lemma post_transaction_handles t w :
  sat (post_transaction t) w (λ w' p,
    log_extends t w w'
    ∧ answers (statuses_of (Transaction.type t)) p
    ∧ (Transaction.type t = "withdraw_request" → ∀ a, balance_of w' a = balance_of w a)).
Proof.
  unfold post_transaction.
  apply sat_try_catch, sat_bind, sat_console_log.
  set (w0 := add_console _ w).
  assert (Hcase : sat (switch_type t) w0 (λ w' p,
            log_extends t w w'
            ∧ (Transaction.type t = "withdraw_request" →
               ∀ a, balance_of w' a = balance_of w a)
            ∧ match p with
              | Fulfilled resp =>
                  Response.status resp ∈ statuses_of (Transaction.type t)
              | Rejected _ => 500 ∈ statuses_of (Transaction.type t)
              | Pending => True
              end)).
  { unfold switch_type, statuses_of.
    destruct (bool_decide (Transaction.type t = "deposit")) eqn:Hd.
    { apply bool_decide_eq_true in Hd.
      eapply sat_weaken; [apply deposit_case_extends|].
      intros w' p [Hext Hresp]. split; [exact Hext|]. split; [by rewrite Hd|].
      destruct p as [resp|e|]; [rewrite (Hresp resp eq_refl)|..|done];
        rewrite !elem_of_cons; tauto. }
    destruct (bool_decide (Transaction.type t = "withdraw_request")) eqn:Hr.
    { eapply sat_weaken; [apply withdraw_request_case_extends|].
      intros w' p (Hext & Hbal & Hresp). split; [exact Hext|]. split; [done|].
      destruct p as [resp|e|]; [specialize (Hresp resp eq_refl)|..|done];
        rewrite !elem_of_cons in *; tauto. }
    apply bool_decide_eq_false in Hr.
    destruct (bool_decide (Transaction.type t = "withdraw")) eqn:Hw.
    { eapply sat_weaken; [apply withdraw_case_extends|].
      intros w' p [Hext Hresp]. split; [exact Hext|]. split; [done|].
      destruct p as [resp|e|]; [rewrite (Hresp resp eq_refl)|..|done];
        rewrite !elem_of_cons; tauto. }
    apply sat_bind, sat_console_log, sat_ret.
    split; [by left|]. split; [done|]. simpl. rewrite !elem_of_cons. tauto. }
  eapply sat_weaken; [apply Hcase|].
  intros w1 [resp|e|] (Hext & Hbal & Hresp).
  - by repeat split.
  - unfold internal_server_error. apply sat_bind, sat_console_log, sat_ret.
    by repeat split.
  - by repeat split.
Qed.

End handlers_any_world.

(** The log is append-only.  Whatever the type of the transaction and
    whatever the store answers, a request leaves the log as it was or
    one row longer, the new row being the stored transaction; no row is
    removed or rewritten. *)
Theorem log_is_append_only (t : Transaction.t) (w : World) :
  log_extends t w (post_transaction t w).1
  ∧ transactions (store w) `prefix_of` transactions (store (post_transaction t w).1).
Proof.
  destruct (post_transaction_handles t w) as (Hext & _).
  split; [exact Hext|].
  destruct Hext as [->|(_ & _ & ->)]; [done|]. by apply prefix_app_r.
Qed.

(** The ids of the log stay pairwise distinct through every request,
    whatever the store answers. *)
Theorem log_ids_stay_unique (t : Transaction.t) (w : World) :
  NoDup (log_ids w) → NoDup (log_ids (post_transaction t w).1).
Proof.
  intros Hnd. destruct (post_transaction_handles t w) as (Hext & _).
  unfold log_ids in *. destruct Hext as [->|(Hfresh & _ & ->)]; [done|].
  rewrite fmap_app. apply NoDup_app. split; [done|]. split.
  - intros x Hx Hin. apply list_elem_of_singleton in Hin as ->. by apply Hfresh.
  - apply NoDup_singleton.
Qed.

Lemma log_ids_stay_unique_witness :
  NoDup (log_ids (at_time 2 funded))
  ∧ NoDup (log_ids (post_transaction (sample "t1" "deposit" 100) (at_time 2 funded)).1).
Proof.
  assert (Hnd : NoDup (log_ids (at_time 2 funded))).
  { vm_compute. apply NoDup_singleton. }
  split; [exact Hnd|]. exact (log_ids_stay_unique _ _ Hnd).
Defined.

(** Every row of the log carries a type the table accepts and a time of
    insertion no later than the clock, and a request keeps it so,
    whatever the store answers. *)
Theorem log_rows_stay_well_formed (t : Transaction.t) (w : World) :
  Forall well_formed_row (transactions (store w)) →
  not_after (now w) (transactions (store w)) →
  Forall well_formed_row (transactions (store (post_transaction t w).1))
  ∧ not_after (now w) (transactions (store (post_transaction t w).1)).
Proof.
  intros Hwf Hbefore. destruct (post_transaction_handles t w) as (Hext & _).
  destruct Hext as [->|(_ & Hty & ->)]; [done|]. unfold not_after in *.
  rewrite !Forall_app, !Forall_singleton. repeat split; try done.
  simpl. intros tr [= <-]. lia.
Qed.

Lemma log_rows_stay_well_formed_witness :
  Forall well_formed_row (transactions (store (at_time 2 funded)))
  ∧ not_after (now (at_time 2 funded)) (transactions (store (at_time 2 funded)))
  ∧ Forall well_formed_row
      (transactions (store (post_transaction (sample "t2" "withdraw_request" 60)
                              (at_time 2 funded)).1)).
Proof.
  assert (Hwf : Forall well_formed_row (transactions (store (at_time 2 funded)))).
  { vm_compute. apply Forall_singleton. split; [reflexivity|by eexists]. }
  assert (Hbefore : not_after (now (at_time 2 funded))
                      (transactions (store (at_time 2 funded)))).
  { vm_compute. apply Forall_singleton. intros tr [= <-]. discriminate. }
  split; [exact Hwf|]. split; [exact Hbefore|].
  exact (proj1 (log_rows_stay_well_formed _ _ Hwf Hbefore)).
Defined.

(** The handler never rejects: its promise stays pending (a call of the
    store outside the timed check is never answered) or it sends a
    response, and the status is 200 or 500 for a deposit or a withdraw,
    201, 402 or 500 for a withdraw_request, and 400 for any other
    type. *)
Theorem handler_answers_by_type (t : Transaction.t) (w : World) :
  answers (statuses_of (Transaction.type t)) (post_transaction t w).2.
Proof. by destruct (post_transaction_handles t w) as (_ & Hans & _). Qed.

(** A withdraw_request never moves a balance: whatever the decision and
    whatever the store answers, every account has the balance it had. *)
Theorem withdraw_request_moves_no_balance (t : Transaction.t) (w : World) :
  Transaction.type t = "withdraw_request" →
  ∀ a, balance_of (post_transaction t w).1 a = balance_of w a.
Proof. intros Hty. by destruct (post_transaction_handles t w) as (_ & _ & Hbal); auto. Qed.

Lemma withdraw_request_moves_no_balance_witness :
  Transaction.type (sample "t2" "withdraw_request" 60) = "withdraw_request"
  ∧ balance_of (post_transaction (sample "t2" "withdraw_request" 60)
                  (at_time 2 funded)).1 "acc1" = 100.
Proof.
  assert (Hty : Transaction.type (sample "t2" "withdraw_request" 60)
                = "withdraw_request") by done.
  split; [exact Hty|].
  exact (withdraw_request_moves_no_balance _ (at_time 2 funded) Hty "acc1").
Defined.

Lemma post_transaction_unknown_type (t : Transaction.t) (w : World) :
  valid_type (Transaction.type t) = false →
  ∃ c, post_transaction t w
       = (mkWorld (env w) (supabase w) (store w) (postgres w) (now w) (script w) c,
          Fulfilled (Response.mk 400 (InvalidType "Invalid transaction type" t))).
Proof.
  intros Hty. unfold valid_type in Hty.
  apply orb_false_iff in Hty as [Hty Hw]. apply orb_false_iff in Hty as [Hd Hr].
  unfold post_transaction, switch_type. rewrite Hd, Hr, Hw. by eexists.
Qed.

(** A transaction of a type other than the three is answered 400 with
    the transaction in the body before any interaction with the store:
    the store, the script of its replies and the client are as they
    were, also when the credentials are missing. *)
Theorem unknown_type_is_rejected_before_the_store (t : Transaction.t) (w : World) :
  valid_type (Transaction.type t) = false →
  let r := post_transaction t w in
  r.2 = Fulfilled (Response.mk 400 (InvalidType "Invalid transaction type" t))
  ∧ store r.1 = store w
  ∧ script r.1 = script w
  ∧ supabase r.1 = supabase w.
Proof.
  intros Hty r. unfold r.
  by destruct (post_transaction_unknown_type t w Hty) as [c ->].
Qed.

Lemma unknown_type_is_rejected_before_the_store_witness :
  valid_type (Transaction.type (sample "t9" "refund" 5)) = false
  ∧ status_of (post_transaction (sample "t9" "refund" 5) (boot unconfigured_env))
    = Some 400.
Proof.
  assert (Hty : valid_type (Transaction.type (sample "t9" "refund" 5)) = false) by done.
  split; [exact Hty|].
  destruct (unknown_type_is_rejected_before_the_store _ (boot unconfigured_env) Hty)
    as (Hp & _).
  unfold status_of. rewrite Hp. reflexivity.
Defined.

(** ** Requests one after the other, the store answering every call *)

Section requests_in_turn.

Implicit Types (w : World) (t : Transaction.t).

Lemma ready_at_time time w : ready w → ready (at_time time w).
Proof. by destruct w. Qed.

(** Every function of the program leaves a ready world ready, in the
    same session. *)
Lemma keeps_ret {A} (a : A) : keeps (ret a).
Proof. by intros w Hw. Qed.

Lemma keeps_throw {A} e : keeps (@throw A e).
Proof. by intros w Hw. Qed.

Lemma keeps_bind {A B} (m : Async A) (k : A → Async B) :
  keeps m → (∀ a, keeps (k a)) → keeps (bind m k).
Proof.
  intros Hm Hk w Hw. unfold bind. specialize (Hm w Hw).
  destruct (m w) as [w1 [a|e|]]; [|done..]. simpl in Hm. destruct Hm as [Hw1 Hpg].
  rewrite <- Hpg. by apply Hk.
Qed.

Lemma keeps_try_catch {A} (m : Async A) h :
  keeps m → (∀ e, keeps (h e)) → keeps (try_catch m h).
Proof.
  intros Hm Hh w Hw. unfold try_catch. specialize (Hm w Hw).
  destruct (m w) as [w1 [a|e|]]; [done| |done]. simpl in Hm. destruct Hm as [Hw1 Hpg].
  rewrite <- Hpg. by apply Hh.
Qed.

Lemma keeps_race_timeout {A} (p : Async A) : keeps p → keeps (race_timeout p).
Proof.
  intros Hp w Hw. unfold race_timeout. specialize (Hp w Hw).
  by destruct (p w) as [w1 [a|e|]].
Qed.

Lemma keeps_console_log l txt fs : keeps (console_log l txt fs).
Proof. intros w Hw. split; [by apply ready_add_console|done]. Qed.

Lemma keeps_getSupabaseClient : keeps getSupabaseClient.
Proof. intros w Hw. by rewrite getSupabaseClient_ready. Qed.

Lemma keeps_call {A} (run : Postgres.t → Z → Store → Store * Result.t A) :
  keeps (call run).
Proof.
  intros [e sb s pg n sc c] [Hc Hs]. simpl in Hs. subst sc.
  unfold call, next_reply. simpl. by destruct (run pg n s).
Qed.

End requests_in_turn.

(** The functions of the program are built from the steps above. *)
Ltac keep :=
  repeat match goal with
    | |- forall _, _ => intros ?
    | |- keeps (bind _ _) => apply keeps_bind
    | |- keeps (try_catch _ _) => apply keeps_try_catch
    | |- keeps (race_timeout _) => apply keeps_race_timeout
    | |- keeps (ret _) => apply keeps_ret
    | |- keeps (throw _) => apply keeps_throw
    | |- keeps (console_log _ _ _) => apply keeps_console_log
    | |- keeps getSupabaseClient => apply keeps_getSupabaseClient
    | |- keeps (call _) => apply keeps_call
    | |- keeps (match ?x with _ => _ end) => destruct x
    end.

Section requests_one_by_one.

Implicit Types (w : World) (t : Transaction.t).

Lemma keeps_insertTransaction t : keeps (insertTransaction t).
Proof. unfold insertTransaction. keep. Qed.

Lemma keeps_getAccountBalance accountId : keeps (getAccountBalance accountId).
Proof. unfold getAccountBalance. keep. Qed.

Lemma keeps_updateAccountBalance accountId newBalance :
  keeps (updateAccountBalance accountId newBalance).
Proof. unfold updateAccountBalance. keep. Qed.

Lemma keeps_mutate op accountId amount : keeps (mutate op accountId amount).
Proof.
  destruct op; simpl; unfold incrementAccountBalance, decrementAccountBalance.
  all: apply keeps_bind; [apply keeps_getSupabaseClient|intros _].
  all: apply keeps_bind; [apply keeps_getAccountBalance|intros b].
  all: apply keeps_updateAccountBalance.
Qed.

Lemma keeps_checkAndReserveBalanceFallback accountId requested :
  keeps (checkAndReserveBalanceFallback accountId requested).
Proof.
  unfold checkAndReserveBalanceFallback.
  apply keeps_bind; [apply keeps_getSupabaseClient|intros _].
  apply keeps_bind; [apply keeps_getAccountBalance|intros b].
  keep.
Qed.

Lemma keeps_checkAndReserveBalance accountId requested :
  keeps (checkAndReserveBalance accountId requested).
Proof.
  unfold checkAndReserveBalance.
  apply keeps_bind; [apply keeps_getSupabaseClient|intros _].
  apply keeps_bind; [apply keeps_call|intros r].
  destruct (Result.error r); [|apply keeps_ret].
  apply keeps_bind; [apply keeps_console_log|intros _].
  apply keeps_checkAndReserveBalanceFallback.
Qed.

Lemma keeps_post_transaction t : keeps (post_transaction t).
Proof.
  unfold post_transaction. apply keeps_try_catch.
  2:{ intros e. unfold internal_server_error. keep. }
  apply keeps_bind; [apply keeps_console_log|intros _].
  unfold switch_type.
  destruct (bool_decide (Transaction.type t = "deposit")).
  { unfold deposit_case.
    apply keeps_bind; [apply keeps_insertTransaction|intros _].
    apply keeps_bind; [apply keeps_console_log|intros _].
    apply keeps_bind; [apply (keeps_mutate Increment)|intros _].
    apply keeps_bind; [apply keeps_getAccountBalance|intros b]. keep. }
  destruct (bool_decide (Transaction.type t = "withdraw_request")).
  { unfold withdraw_request_case. apply keeps_try_catch.
    2:{ intros e. unfold on_check_error. destruct (bool_decide _); keep. }
    apply keeps_bind; [apply keeps_console_log|intros _].
    apply keeps_bind;
      [apply keeps_race_timeout, keeps_checkAndReserveBalance|intros approved].
    unfold answer_request.
    apply keeps_bind; [apply keeps_getAccountBalance|intros b].
    destruct approved.
    all: apply keeps_bind; [apply keeps_insertTransaction|intros _]; keep. }
  destruct (bool_decide (Transaction.type t = "withdraw")).
  { unfold withdraw_case.
    apply keeps_bind; [apply keeps_insertTransaction|intros _].
    apply keeps_bind; [apply keeps_console_log|intros _].
    apply keeps_bind; [apply (keeps_mutate Decrement)|intros _].
    apply keeps_bind; [apply keeps_getAccountBalance|intros b]. keep. }
  keep.
Qed.

(** A request leaves a ready world ready, in the same session. *)
Lemma post_transaction_world t w :
  ready w →
  ready (post_transaction t w).1
  ∧ postgres (post_transaction t w).1 = postgres w.
Proof. apply keeps_post_transaction. Qed.

Lemma run_requests_cons request requests w :
  run_requests (request :: requests) w
  = run_requests requests (post_transaction request.2 (at_time request.1 w)).1.
Proof. done. Qed.

Lemma run_requests_ready requests w : ready w → ready (run_requests requests w).
Proof.
  revert w. induction requests as [|request requests IH]; intros w Hw; [done|].
  rewrite run_requests_cons. by apply IH, post_transaction_world, ready_at_time.
Qed.

(** One request, the store answering: the balance of any account is
    moved as [moved] says. *)
Lemma post_transaction_effect accountId t w :
  ready w →
  balance_of (post_transaction t w).1 accountId
  = moved (postgres w) accountId (balance_of w accountId) t.
Proof.
  intros Hw. unfold moved.
  destruct (decide (valid_type (Transaction.type t) = true)) as [Hv|Hv].
  - destruct (decide (accepted w t)) as [Hts|Hts].
    + pose proof Hts as Hin. unfold accepted in Hin. rewrite Hin, andb_true_r.
      unfold valid_type in Hv.
      apply orb_true_iff in Hv as [Hv|Hwd];
        [apply orb_true_iff in Hv as [Hd|Hr]|].
      * apply bool_decide_eq_true in Hd. rewrite (bool_decide_eq_true_2 _ Hd).
        destruct (post_transaction_deposit_ready t w Hw Hts Hd) as (_ & Hb & Ho & _).
        destruct (decide (Transaction.accountId t = accountId)) as [Ha|Ha].
        -- rewrite (bool_decide_eq_true_2 _ Ha). by rewrite <- Ha, Hb.
        -- rewrite (bool_decide_eq_false_2 _ Ha). by apply Ho.
      * apply bool_decide_eq_true in Hr.
        destruct (post_transaction_withdraw_request_ready t w Hw Hts Hr)
          as (_ & Hbal & _).
        rewrite Hbal, Hr. by destruct (bool_decide (_ = accountId)).
      * apply bool_decide_eq_true in Hwd.
        destruct (post_transaction_withdraw_ready t w Hw Hts Hwd) as (_ & Hb & Ho & _).
        rewrite (bool_decide_eq_false_2 (Transaction.type t = "deposit"))
          by (by rewrite Hwd).
        rewrite (bool_decide_eq_true_2 _ Hwd).
        destruct (decide (Transaction.accountId t = accountId)) as [Ha|Ha].
        -- rewrite (bool_decide_eq_true_2 _ Ha). by rewrite <- Ha, Hb.
        -- rewrite (bool_decide_eq_false_2 _ Ha). by apply Ho.
    + destruct (post_transaction_unreadable t w Hw Hts Hv) as (_ & _ & Hbal & _).
      apply not_true_is_false in Hts. unfold accepted in Hts.
      rewrite Hts, andb_false_r. apply Hbal.
  - apply not_true_is_false in Hv.
    destruct (post_transaction_unknown_type t w Hv) as [c ->]. cbn [fst].
    unfold valid_type in Hv.
    apply orb_false_iff in Hv as [Hv Hwd]. apply orb_false_iff in Hv as [Hd _].
    rewrite Hd, Hwd. by destruct (_ && _).
Qed.

Lemma moved_safe pg accountId b t :
  Number.safe (b + effect_on pg accountId t) →
  moved pg accountId b t = b + effect_on pg accountId t.
Proof.
  unfold moved, effect_on. destruct (_ && _); [|lia].
  destruct (bool_decide (Transaction.type t = "deposit")).
  { apply add_safe. }
  destruct (bool_decide (Transaction.type t = "withdraw")); [|lia].
  intros Hs. rewrite sub_safe; [lia|]. by replace (b - Transaction.amount t)
    with (b + - Transaction.amount t) by lia.
Qed.

Lemma moved_stays_safe pg accountId b (ts : list Transaction.t) :
  stays_safe b (effect_on pg accountId <$> ts) →
  foldl (moved pg accountId) b ts
  = b + foldr Z.add 0 (effect_on pg accountId <$> ts).
Proof.
  revert b. induction ts as [|t ts IH]; intros b; csimpl; [lia|].
  intros [Hs Hrest]. rewrite moved_safe by done. rewrite IH by done. lia.
Qed.

End requests_one_by_one.







(** ** The balance query, the client and the balance row *)

(** [GET /account/:accountId] only reads.  Whatever the store answers it
    leaves the store as it was and never rejects: it sends 200 or 500,
    or stays pending.  When the store answers, the response is 200 with
    the balance of the account, which is 0 for an account without a
    row. *)
Theorem balance_query_only_reads (accountId : string) (w : World) :
  store (get_account accountId w).1 = store w
  ∧ answers [200; 500] (get_account accountId w).2
  ∧ (ready w →
     (get_account accountId w).2
     = Fulfilled (Response.mk 200 (Balance accountId (balance_of w accountId))))
  ∧ (accounts (store w) !! accountId = None → balance_of w accountId = 0).
Proof.
  split; [|split; [|split]].
  - apply (sat_try_catch _ _ _ (λ w' _, store w' = store w)).
    apply sat_bind. eapply sat_weaken; [apply getAccountBalance_any|].
    by intros w1 [b|e|] [Hs _].
  - apply (sat_try_catch _ _ _ (λ _ p, answers [200; 500] p)).
    apply sat_bind. eapply sat_weaken; [apply getAccountBalance_any|].
    intros w1 [b|e|] _; [| |done].
    + apply sat_bind, sat_console_log, sat_ret. simpl. rewrite !elem_of_cons. tauto.
    + apply sat_bind, sat_console_log, sat_ret. simpl. rewrite !elem_of_cons. tauto.
  - intros Hw. unfold get_account. erewrite try_catch_Fulfilled; [reflexivity|].
    run (getAccountBalance_ready _ _ Hw). by run_log.
  - unfold balance_of, balance_in. by intros ->.
Qed.

(** The client is created once.  After a call of [getSupabaseClient] that
    returned a client, every later call returns that client and changes
    nothing, whatever the environment holds by then; a call that threw
    has left the world as it was. *)
Theorem client_is_created_once (w w1 : World) (p : Promise SupabaseClient) :
  getSupabaseClient w = (w1, p) →
  match p with
  | Fulfilled c =>
      supabase w1 = Some c
      ∧ ∀ e, getSupabaseClient (with_env e w1) = (with_env e w1, Fulfilled c)
  | Rejected e => w1 = w ∧ message e = missing_credentials
  | Pending => False
  end.
Proof.
  unfold getSupabaseClient. destruct (supabase w) as [c|] eqn:Hsb.
  - intros [= <- <-]. split; [done|]. intros e. unfold with_env. simpl. by rewrite Hsb.
  - destruct (_ || _); intros [= <- <-]; [done|]. split; [done|]. by intros e.
Qed.

Lemma client_is_created_once_witness :
  getSupabaseClient (boot configured_env)
  = (during (boot configured_env) [] (mkStore [] ∅) [],
     Fulfilled (createClient "https://project.supabase.co" "service-role-key"))
  ∧ getSupabaseClient
      (with_env unconfigured_env (during (boot configured_env) [] (mkStore [] ∅) []))
    = (with_env unconfigured_env (during (boot configured_env) [] (mkStore [] ∅) []),
       Fulfilled (createClient "https://project.supabase.co" "service-role-key")).
Proof.
  assert (Hcall : getSupabaseClient (boot configured_env)
    = (during (boot configured_env) [] (mkStore [] ∅) [],
       Fulfilled (createClient "https://project.supabase.co" "service-role-key")))
    by reflexivity.
  split; [exact Hcall|].
  exact (proj2 (client_is_created_once _ _ _ Hcall) unconfigured_env).
Defined.

(** A balance that was written is the balance that is read: after
    [updateAccountBalance] the read of the same account returns the new
    balance, also when the account had no row, and the read of any other
    account returns what it returned before. *)
Theorem balance_written_is_balance_read (accountId : string) (newBalance : Z)
    (w : World) :
  ready w →
  let w1 := (updateAccountBalance accountId newBalance w).1 in
  (getAccountBalance accountId w1).2 = Fulfilled newBalance
  ∧ ∀ a, a ≠ accountId → (getAccountBalance a w1).2 = (getAccountBalance a w).2.
Proof.
  intros Hw w1. unfold w1. rewrite updateAccountBalance_ready by done. cbn [fst].
  split.
  - rewrite getAccountBalance_ready by apply ready_after. cbn [snd].
    unfold balance_of. cbn [during store]. by rewrite balance_in_with_balance.
  - intros a Ha. rewrite !getAccountBalance_ready by (done || apply ready_after).
    cbn [snd]. unfold balance_of. cbn [during store].
    by rewrite balance_in_with_balance_ne.
Qed.

Lemma balance_written_is_balance_read_witness :
  ready (boot configured_env)
  ∧ (getAccountBalance "acc1"
       (updateAccountBalance "acc1" (-5) (boot configured_env)).1).2
    = Fulfilled (-5).
Proof.
  assert (Hw : ready (boot configured_env)) by done.
  split; [exact Hw|].
  exact (proj1 (balance_written_is_balance_read "acc1" (-5) _ Hw)).
Defined.

(** ** The database function and the fallback loop *)

(** The database function writes no reservation.  It leaves the log and
    every balance as they were; the one thing it may write is the row of
    the account, with balance 0, when the account had none, so that a
    second run changes nothing.  The fallback writes nothing at all. *)
Theorem check_writes_the_account_row_only (time time' : Z) (s : Store)
    (accountId : string) (requested requested' : Z) :
  let s' := (Sql.check_withdraw_request time s accountId requested).1 in
  is_Some (accounts s' !! accountId)
  ∧ transactions s' = transactions s
  ∧ (∀ a, balance_in s' a = balance_in s a)
  ∧ (∀ a, a ≠ accountId → accounts s' !! a = accounts s !! a)
  ∧ (is_Some (accounts s !! accountId) → s' = s)
  ∧ (Sql.check_withdraw_request time' s' accountId requested').1 = s'
  ∧ ∀ w, ready w →
         store (checkAndReserveBalanceFallback accountId requested w).1 = store w.
Proof.
  intros s'. unfold s'. rewrite !sql_check_store.
  destruct (accounts s !! accountId) as [acc|] eqn:Hacc; simpl.
  - rewrite Hacc. repeat split; try done.
    intros w Hw. by rewrite checkAndReserveBalanceFallback_ready.
  - rewrite lookup_insert_eq. repeat split; try done.
    + intros a. unfold balance_in. simpl.
      destruct (decide (accountId = a)) as [->|Hne].
      * by rewrite lookup_insert_eq, Hacc.
      * by rewrite lookup_insert_ne.
    + intros a Ha. by rewrite lookup_insert_ne.
    + intros w Hw. by rewrite checkAndReserveBalanceFallback_ready.
Qed.

Section fallback_loop.

Implicit Types (requests : list Selected.t).

Lemma total_abs_filter_le {A} (c : A → bool) (g : A → Z) (l : list A) :
  foldr Z.add 0 (Z.abs <$> (g <$> filter (λ x, c x) l))
  ≤ foldr Z.add 0 (Z.abs <$> (g <$> l)).
Proof.
  induction l as [|x l IH]; [done|].
  rewrite filter_cons. destruct (decide _); csimpl; lia.
Qed.

(** The loop when every request counts: the amounts added one after the
    other. *)
Lemma foldl_all_counted (c : Selected.t → bool) (a : Z) requests :
  Forall (λ r, c r = true) requests →
  foldl (λ acc r, if c r then Number.add acc (Selected.amount r) else acc) a requests
  = foldl Number.add a (Selected.amount <$> requests).
Proof.
  intros Hc. revert a. induction Hc as [|r rs Hr _ IH]; intros a; [done|].
  csimpl. by rewrite Hr, IH.
Qed.

Lemma foldl_add_safe (a : Z) (xs : list Z) :
  Z.abs a + foldr Z.add 0 (Z.abs <$> xs) ≤ 2 ^ 53 →
  foldl Number.add a xs = a + foldr Z.add 0 xs.
Proof.
  revert a. induction xs as [|x xs IH]; intros a; csimpl; [lia|].
  intros Hb. pose proof (total_abs_nonneg xs) as Hnn.
  rewrite add_safe by (unfold Number.safe; lia). rewrite IH by lia. lia.
Qed.

Lemma total_filter_bounds {A} (c : A → bool) (g : A → Z) (l : list A) :
  Forall (λ x, 0 ≤ g x) l →
  0 ≤ foldr Z.add 0 (g <$> filter (λ x, c x) l) ≤ foldr Z.add 0 (g <$> l).
Proof.
  induction 1 as [|x l Hx _ IH]; [done|].
  rewrite filter_cons. destruct (decide _); csimpl; lia.
Qed.

(** The loop of the fallback counts the same requests in whatever
    order the rows come. *)
Lemma counted_Permutation requests requests' (withdraws withdraws' : list Selected.t) :
  requests ≡ₚ requests' → withdraws ≡ₚ withdraws' →
  Selected.amount <$>
    filter (λ request, negb (existsb (λ w, at_or_after w request) withdraws)) requests
  ≡ₚ Selected.amount <$>
       filter (λ request, negb (existsb (λ w, at_or_after w request) withdraws'))
         requests'.
Proof.
  intros Hr Hw.
  etrans; [apply fmap_Permutation, filter_Permutation, Hr|].
  apply reflexive_eq. f_equal. apply list_filter_iff. intros r.
  rewrite !negb_True, !Is_true_true, !existsb_Exists. by rewrite Hw.
Qed.

End fallback_loop.

(** The pending amount of the fallback does not depend on the order in
    which the store returns the rows of the two queries, as long as the
    amounts of the requests add up without rounding: their absolute
    values sum to [2^53] at most.  Beyond that the order of the rows
    shows: the requests for [2^53], 1 and 1 add up to [2^53] in this
    order and to [2^53 + 2] in the opposite one. *)
Theorem pending_amount_ignores_row_order (requests requests' withdraws withdraws'
    : list Selected.t) :
  (requests ≡ₚ requests' → withdraws ≡ₚ withdraws' →
   foldr Z.add 0 (Z.abs <$> (Selected.amount <$> requests)) ≤ 2 ^ 53 →
   pendingAmount_of (Some requests) (Some withdraws)
   = pendingAmount_of (Some requests') (Some withdraws'))
  ∧ pendingAmount_of
      (Some [Selected.mk "r1" (2 ^ 53) None; Selected.mk "r2" 1 None;
             Selected.mk "r3" 1 None]) (Some withdraws) = 2 ^ 53
  ∧ pendingAmount_of
      (Some [Selected.mk "r3" 1 None; Selected.mk "r2" 1 None;
             Selected.mk "r1" (2 ^ 53) None]) (Some withdraws) = 2 ^ 53 + 2.
Proof.
  split.
  - intros Hr Hw Hsum. unfold pendingAmount_of. simpl.
    pose proof (counted_Permutation _ _ _ _ Hr Hw) as Hperm.
    pose proof (total_abs_filter_le
                  (λ request, negb (existsb (λ w, at_or_after w request) withdraws))
                  Selected.amount requests) as Hle.
    cbn beta in Hle.
    rewrite (foldl_rounding_sum
               (λ request, negb (existsb (λ w, at_or_after w request) withdraws))
               Selected.amount) by lia.
    rewrite (foldl_rounding_sum
               (λ request, negb (existsb (λ w, at_or_after w request) withdraws'))
               Selected.amount)
      by (rewrite <- (total_Permutation _ _ (fmap_Permutation Z.abs _ _ Hperm)); lia).
    f_equal. by apply total_Permutation.
  - assert (Hnone : ∀ (w : Selected.t) id amount,
              at_or_after w (Selected.mk id amount None) = false).
    { intros w id amount. unfold at_or_after. simpl. by rewrite andb_false_r. }
    assert (Hno : ∀ id amount,
              existsb (λ w, at_or_after w (Selected.mk id amount None)) withdraws
              = false).
    { intros id amount. induction withdraws as [|w ws IH]; [done|].
      simpl. by rewrite Hnone, IH. }
    unfold pendingAmount_of. simpl. rewrite !Hno. simpl.
    split; vm_compute; reflexivity.
Qed.

Lemma pending_amount_ignores_row_order_witness :
  [Selected.mk "a" 10 (Some "2024-01-01T00:00:01+00:00");
   Selected.mk "b" 20 (Some "2024-01-01T00:00:05+00:00")]
    ≡ₚ [Selected.mk "b" 20 (Some "2024-01-01T00:00:05+00:00");
        Selected.mk "a" 10 (Some "2024-01-01T00:00:01+00:00")]
  ∧ pendingAmount_of
      (Some [Selected.mk "a" 10 (Some "2024-01-01T00:00:01+00:00");
             Selected.mk "b" 20 (Some "2024-01-01T00:00:05+00:00")])
      (Some [Selected.mk "w" 3 (Some "2024-01-01T00:00:02+00:00")])
    = pendingAmount_of
        (Some [Selected.mk "b" 20 (Some "2024-01-01T00:00:05+00:00");
               Selected.mk "a" 10 (Some "2024-01-01T00:00:01+00:00")])
        (Some [Selected.mk "w" 3 (Some "2024-01-01T00:00:02+00:00")]).
Proof.
  assert (Hr : [Selected.mk "a" 10 (Some "2024-01-01T00:00:01+00:00");
                Selected.mk "b" 20 (Some "2024-01-01T00:00:05+00:00")]
               ≡ₚ [Selected.mk "b" 20 (Some "2024-01-01T00:00:05+00:00");
                   Selected.mk "a" 10 (Some "2024-01-01T00:00:01+00:00")])
    by apply Permutation_swap.
  split; [exact Hr|].
  apply (proj1 (pending_amount_ignores_row_order _ _ _ _) Hr
           (reflexivity [Selected.mk "w" 3 (Some "2024-01-01T00:00:02+00:00")])).
  vm_compute. discriminate.
Defined.

(** The edges of the fallback loop.  Without request rows the pending
    amount is 0; without withdraw rows, or with [null] in their place,
    every request is pending, and so is every request without a
    [created_at], whatever the withdraws: the pending amount is then the
    amounts of the requests added one after the other.  When the
    absolute values of the amounts sum to [2^53] at most this is their
    exact sum, and when moreover no amount is negative the pending
    amount lies between 0 and that sum. *)
Theorem pending_amount_edges (requests : list Selected.t)
    (withdraws : option (list Selected.t)) :
  pendingAmount_of None withdraws = 0
  ∧ pendingAmount_of (Some []) withdraws = 0
  ∧ pendingAmount_of (Some requests) None
    = foldl Number.add 0 (Selected.amount <$> requests)
  ∧ pendingAmount_of (Some requests) (Some [])
    = foldl Number.add 0 (Selected.amount <$> requests)
  ∧ (Forall (λ r, truthy (Selected.created_at r) = false) requests →
     pendingAmount_of (Some requests) withdraws
     = foldl Number.add 0 (Selected.amount <$> requests))
  ∧ (foldr Z.add 0 (Z.abs <$> (Selected.amount <$> requests)) ≤ 2 ^ 53 →
     foldl Number.add 0 (Selected.amount <$> requests)
     = foldr Z.add 0 (Selected.amount <$> requests)
     ∧ (Forall (λ r, 0 ≤ Selected.amount r) requests →
        0 ≤ pendingAmount_of (Some requests) withdraws
        ≤ foldr Z.add 0 (Selected.amount <$> requests))).
Proof.
  split; [done|]. split; [done|]. split; [|split; [|split]].
  - apply (foldl_all_counted (λ _, true)). by apply Forall_forall.
  - apply (foldl_all_counted (λ _, true)). by apply Forall_forall.
  - intros Hnull. unfold pendingAmount_of.
    apply (foldl_all_counted
             (λ request, negb (default false
                ((λ ws, existsb (λ w, at_or_after w request) ws) <$> withdraws)))).
    eapply Forall_impl; [exact Hnull|]. intros r Hr. simpl.
    destruct withdraws as [ws|]; [|done]. simpl. apply negb_true_iff.
    apply not_true_iff_false. rewrite existsb_Exists, Exists_exists.
    intros (x & _ & Hat). unfold at_or_after in Hat. rewrite Hr in Hat.
    by rewrite andb_false_r in Hat.
  - intros Hsum. split.
    + rewrite foldl_add_safe; lia.
    + intros Hpos. unfold pendingAmount_of.
      pose proof (total_abs_filter_le
                    (λ request, negb (default false
                       ((λ ws, existsb (λ w, at_or_after w request) ws) <$> withdraws)))
                    Selected.amount requests) as Hle.
      cbn beta in Hle.
      rewrite (foldl_rounding_sum
                 (λ request, negb (default false
                    ((λ ws, existsb (λ w, at_or_after w request) ws) <$> withdraws)))
                 Selected.amount) by lia.
      rewrite Z.add_0_l. by apply total_filter_bounds.
Qed.

Lemma pending_amount_edges_witness :
  Forall (λ r, truthy (Selected.created_at r) = false)
    [Selected.mk "a" 10 None; Selected.mk "b" 20 None]
  ∧ pendingAmount_of
      (Some [Selected.mk "a" 10 None; Selected.mk "b" 20 None])
      (Some [Selected.mk "w" 3 (Some "2024-01-01T00:00:02+00:00")])
    = foldl Number.add 0 [10; 20]
  ∧ 0 ≤ pendingAmount_of
          (Some [Selected.mk "a" 10 None; Selected.mk "b" 20 None])
          (Some [Selected.mk "w" 3 (Some "2024-01-01T00:00:02+00:00")])
      ≤ 30.
Proof.
  assert (Hnull : Forall (λ r, truthy (Selected.created_at r) = false)
                    [Selected.mk "a" 10 None; Selected.mk "b" 20 None])
    by (repeat constructor).
  destruct (pending_amount_edges
              [Selected.mk "a" 10 None; Selected.mk "b" 20 None]
              (Some [Selected.mk "w" 3 (Some "2024-01-01T00:00:02+00:00")]))
    as (_ & _ & _ & _ & Hall & Hsum).
  split; [exact Hnull|]. split; [exact (Hall Hnull)|].
  apply Hsum; [vm_compute; discriminate|].
  repeat constructor; simpl; lia.
Defined.

(** ** The server without log lines *)

Section plain_server.

Implicit Types (w : World) (t : Transaction.t).

Lemma plain_mutation_case_ready op t w :
  ready w → accepted w t → valid_type (Transaction.type t) = true →
  applied op t w
    ((insertTransaction t ;;
      mutate op (Transaction.accountId t) (Transaction.amount t) ;;
      ret (Response.mk 200 NoBody)) w).
Proof.
  intros Hw Hts Hty.
  destruct (insertTransaction_ready t w Hw Hts Hty)
    as (s & c & Hins & Hacc & Hin & Hfresh & Hdup).
  run Hins. run (mutate_ready op _ _ _ (ready_after _ _ _)).
  unfold ret. cbn [during store console now].
  by apply mutation_applied.
Qed.

Lemma plain_withdraw_request_case_ready t w :
  ready w → accepted w t → Transaction.type t = "withdraw_request" →
  decided t w (Plain.withdraw_request_case t w).
Proof.
  intros Hw Hts Hty. unfold Plain.withdraw_request_case.
  set (s1 := (Sql.check_withdraw_request (now w) (store w)
                (Transaction.accountId t) (Transaction.amount t)).1).
  destruct (insertTransaction_ready t (after w s1 (console w)) (ready_after _ _ _) Hts)
    as (s & c & Hins & Hacc & Hin & Hfresh & Hdup).
  { by rewrite Hty. }
  rewrite after_after in Hins.
  unfold log_ids in Hfresh, Hdup. cbn [during store now console] in *.
  assert (Hrun : ∃ c',
    (await approved :=
       race_timeout (checkAndReserveBalance (Transaction.accountId t)
                       (Transaction.amount t)) in
     if approved : bool then insertTransaction t ;; ret (Response.mk 201 NoBody)
     else insertTransaction t ;; ret (Response.mk 402 NoBody)) w
    = (after w s c',
       Fulfilled (Response.mk
         (if decide (Spec.covers (store w) (Transaction.accountId t)
                       (Transaction.amount t)) then 201 else 402) NoBody))).
  { run (race_timeout_Fulfilled _ _ _ _ (checkAndReserveBalance_ready _ _ _ Hw)).
    fold s1. destruct (decide (Spec.covers _ _ _)) as [Hc|Hc].
    - rewrite (bool_decide_eq_true_2 _ Hc). run Hins. by eexists.
    - rewrite (bool_decide_eq_false_2 _ Hc). run Hins. by eexists. }
  destruct Hrun as [c' Hrun]. rewrite (try_catch_Fulfilled _ _ _ _ _ Hrun).
  unfold decided, balance_of, log_ids. cbn [fst snd during store].
  split; [done|]. split.
  { intros a. rewrite (balance_in_accounts _ _ _ Hacc). apply sql_check_balance. }
  split; [done|].
  unfold s1 in Hfresh, Hdup. rewrite sql_check_transactions in Hfresh, Hdup.
  split; [done|]. intros ->%Hdup. apply sql_check_transactions.
Qed.

Lemma applied_agree op t w (r1 r2 : World * Promise Response.t) :
  applied op t w r1 → applied op t w r2 →
  r1.2 = r2.2
  ∧ transactions (store r1.1) = transactions (store r2.1)
  ∧ ∀ a, balance_of r1.1 a = balance_of r2.1 a.
Proof.
  intros (Hp1 & Hb1 & Ho1 & _ & Hf1 & Hd1) (Hp2 & Hb2 & Ho2 & _ & Hf2 & Hd2).
  split; [congruence|]. split.
  - destruct (decide (Transaction.id t ∈ log_ids w)) as [Hin|Hnin].
    + by rewrite Hd1, Hd2.
    + by rewrite Hf1, Hf2.
  - intros a. destruct (decide (a = Transaction.accountId t)) as [->|Ha].
    + congruence.
    + by rewrite Ho1, Ho2.
Qed.

Lemma decided_agree t w (r1 r2 : World * Promise Response.t) :
  decided t w r1 → decided t w r2 →
  r1.2 = r2.2
  ∧ transactions (store r1.1) = transactions (store r2.1)
  ∧ ∀ a, balance_of r1.1 a = balance_of r2.1 a.
Proof.
  intros (Hp1 & Hb1 & _ & Hf1 & Hd1) (Hp2 & Hb2 & _ & Hf2 & Hd2).
  split; [congruence|]. split.
  - destruct (decide (Transaction.id t ∈ log_ids w)) as [Hin|Hnin].
    + by rewrite Hd1, Hd2.
    + by rewrite Hf1, Hf2.
  - intros a. by rewrite Hb1, Hb2.
Qed.

Lemma unread_agree t w (r1 r2 : World * Promise Response.t) :
  unread t w r1 → unread t w r2 →
  r1.2 = r2.2
  ∧ transactions (store r1.1) = transactions (store r2.1)
  ∧ ∀ a, balance_of r1.1 a = balance_of r2.1 a.
Proof.
  intros (Hp1 & Hl1 & Hb1) (Hp2 & Hl2 & Hb2).
  split; [congruence|]. split; [congruence|]. intros a. by rewrite Hb1, Hb2.
Qed.

Lemma plain_post_transaction_unreadable t w :
  ready w → ¬ accepted w t → valid_type (Transaction.type t) = true →
  unread t w (Plain.post_transaction t w).
Proof.
  intros Hw Hts Hty. unfold Plain.post_transaction, Plain.switch_type.
  assert (Hmutation : ∀ k : Async Response.t,
    unread t w
      (try_catch (insertTransaction t ;; k)
         (λ error,
            console_log ERROR "Error processing transaction:"
              [("error", JStr (message error))] ;;
            ret (Response.mk 500
                   (ServerError "Internal server error" (message error)))) w)).
  { intros k.
    rewrite (try_catch_Rejected _ _ _ _ _
               (bind_Rejected _ _ _ _ _ (insertTransaction_unreadable t w Hw Hts))).
    by run_log. }
  unfold valid_type in Hty.
  apply orb_true_iff in Hty as [Hty|Hty]; [apply orb_true_iff in Hty as [Hty|Hty]|];
    apply bool_decide_eq_true in Hty.
  - rewrite (bool_decide_eq_true_2 _ Hty). apply Hmutation.
  - rewrite Hty. rewrite bool_decide_eq_false_2 by done.
    rewrite bool_decide_eq_true_2 by done. unfold Plain.withdraw_request_case.
    erewrite try_catch_Rejected.
    2:{ erewrite try_catch_Rejected.
        2:{ run (race_timeout_Fulfilled _ _ _ _ (checkAndReserveBalance_ready _ _ _ Hw)).
            assert (¬ accepted (after w (Sql.check_withdraw_request (now w) (store w)
                                           (Transaction.accountId t)
                                           (Transaction.amount t)).1 (console w)) t)
              as Hts' by done.
            destruct (bool_decide _);
              apply bind_Rejected;
              rewrite (insertTransaction_unreadable _ _ (ready_after _ _ _) Hts');
              rewrite after_after; reflexivity. }
        rewrite bool_decide_eq_false_2 by apply unreadable_timestamp_not_timeout.
        reflexivity. }
    run_log. unfold unread, ret, balance_of. cbn [fst snd during store].
    split; [done|]. split; [apply sql_check_transactions|].
    intros a. apply sql_check_balance.
  - rewrite Hty. rewrite 2!bool_decide_eq_false_2 by done.
    rewrite bool_decide_eq_true_2 by done. apply Hmutation.
Qed.

Lemma post_transaction_unread t w :
  ready w → ¬ accepted w t → valid_type (Transaction.type t) = true →
  unread t w (post_transaction t w).
Proof.
  intros Hw Hts Hty.
  destruct (post_transaction_unreadable t w Hw Hts Hty) as (Hp & Hl & Hb & _).
  by split.
Qed.

End plain_server.

(** The server without the log lines and the server with them send the
    same response and leave the same log and the same balances, for
    every transaction, when the store answers every call: the log lines
    and the balance they read back change nothing else. *)
Theorem plain_server_agrees (t : Transaction.t) (w : World) :
  ready w →
  (Plain.post_transaction t w).2 = (post_transaction t w).2
  ∧ transactions (store (Plain.post_transaction t w).1)
    = transactions (store (post_transaction t w).1)
  ∧ ∀ a, balance_of (Plain.post_transaction t w).1 a
         = balance_of (post_transaction t w).1 a.
Proof.
  intros Hw.
  destruct (decide (valid_type (Transaction.type t) = true ∧ ¬ accepted w t))
    as [[Hv Hno]|Hyes].
  { apply (unread_agree t w).
    - by apply plain_post_transaction_unreadable.
    - by apply post_transaction_unread. }
  assert (Hts : valid_type (Transaction.type t) = true → accepted w t).
  { intros Hv. destruct (decide (accepted w t)); [done|]. by destruct Hyes. }
  clear Hyes. unfold Plain.post_transaction, Plain.switch_type.
  destruct (bool_decide (Transaction.type t = "deposit")) eqn:Hd.
  { apply bool_decide_eq_true in Hd.
    assert (Hty : valid_type (Transaction.type t) = true) by (by rewrite Hd).
    pose proof (plain_mutation_case_ready Increment t w Hw (Hts Hty) Hty) as Hplain.
    change (insertTransaction t ;; mutate Increment _ _ ;; ret _)
      with (Plain.deposit_case t) in Hplain.
    destruct (Plain.deposit_case t w) as [w1 p1] eqn:Hcase.
    assert (p1 = Fulfilled (Response.mk 200 NoBody)) as -> by apply Hplain.
    rewrite (try_catch_Fulfilled _ _ _ _ _ Hcase).
    apply (applied_agree Increment t w); [done|].
    by apply post_transaction_deposit_ready; [|apply Hts|]. }
  destruct (bool_decide (Transaction.type t = "withdraw_request")) eqn:Hr.
  { apply bool_decide_eq_true in Hr.
    assert (Hty : valid_type (Transaction.type t) = true) by (by rewrite Hr).
    pose proof (plain_withdraw_request_case_ready t w Hw (Hts Hty) Hr) as Hplain.
    destruct (Plain.withdraw_request_case t w) as [w1 p1] eqn:Hcase.
    destruct Hplain as (Hp & Hrest). simpl in Hp. subst p1.
    rewrite (try_catch_Fulfilled _ _ _ _ _ Hcase).
    apply (decided_agree t w); [by split|].
    by apply post_transaction_withdraw_request_ready; [|apply Hts|]. }
  destruct (bool_decide (Transaction.type t = "withdraw")) eqn:Hwd.
  { apply bool_decide_eq_true in Hwd.
    assert (Hty : valid_type (Transaction.type t) = true) by (by rewrite Hwd).
    pose proof (plain_mutation_case_ready Decrement t w Hw (Hts Hty) Hty) as Hplain.
    change (insertTransaction t ;; mutate Decrement _ _ ;; ret _)
      with (Plain.withdraw_case t) in Hplain.
    destruct (Plain.withdraw_case t w) as [w1 p1] eqn:Hcase.
    assert (p1 = Fulfilled (Response.mk 200 NoBody)) as -> by apply Hplain.
    rewrite (try_catch_Fulfilled _ _ _ _ _ Hcase).
    apply (applied_agree Decrement t w); [done|].
    by apply post_transaction_withdraw_ready; [|apply Hts|]. }
  assert (Hty : valid_type (Transaction.type t) = false).
  { unfold valid_type. by rewrite Hd, Hr, Hwd. }
  by destruct (post_transaction_unknown_type t w Hty) as [c ->].
Qed.

Lemma plain_server_agrees_witness :
  ready (at_time 2 funded)
  ∧ (Plain.post_transaction (sample "t2" "withdraw_request" 160) (at_time 2 funded)).2
    = (post_transaction (sample "t2" "withdraw_request" 160) (at_time 2 funded)).2.
Proof.
  assert (Hw : ready (at_time 2 funded)) by done.
  split; [exact Hw|]. exact (proj1 (plain_server_agrees _ _ Hw)).
Defined.

(** ** A store that is lost after the balance was written *)

Section read_back.

Implicit Types (w : World) (t : Transaction.t).

Lemma insertTransaction_answers t w rs :
  credentials_set w = true → script w = Answers :: rs → accepted w t →
  Transaction.id t ∉ log_ids w → valid_type (Transaction.type t) = true →
  insertTransaction t w
  = (during w rs (with_row (stored t (now w)) (store w)) (console w), Fulfilled tt).
Proof.
  intros Hc Hs Hts Hfresh Hty. unfold insertTransaction.
  run (getSupabaseClient_set _ Hc). rewrite Hs.
  run (call_answers _ _ _ _ _).
  unfold insert_into_transactions. simpl. rewrite Hts, Hty. simpl.
  destruct (existsb _ _) eqn:Hex; [|done].
  apply recorded_iff in Hex. by destruct Hfresh.
Qed.

Lemma updateAccountBalance_answers accountId newBalance w rs s c :
  updateAccountBalance accountId newBalance (during w (Answers :: rs) s c)
  = (during w rs (with_balance accountId newBalance (now w) s) c, Fulfilled tt).
Proof.
  unfold updateAccountBalance.
  run (getSupabaseClient_during _ _ _ _). by run (call_answers _ _ _ _ _).
Qed.

Lemma mutate_answers op accountId amount w rs s c :
  mutate op accountId amount (during w (Answers :: Answers :: rs) s c)
  = (during w rs
       (with_balance accountId (new_balance op (balance_in s accountId) amount)
          (now w) s) c,
     Fulfilled tt).
Proof.
  destruct op; simpl; unfold incrementAccountBalance, decrementAccountBalance.
  all: run (getSupabaseClient_during _ _ _ _).
  all: run (getAccountBalance_answers _ _ _ _ _).
  all: apply updateAccountBalance_answers.
Qed.

End read_back.



(** ** Two balance mutations in every order *)

Ltac run_schedule Hw :=
  cbn [interleave lookup list_lookup];
  repeat (first [ rewrite (resume_Called_ready _ _ _ _ Hw)
                | rewrite (resume_Called_ready _ _ _ _ (ready_after _ _ _))
                | rewrite (resume_Holding_ready _ _ _ (ready_after _ _ _)) ];
          cbn [interleave insert list_insert lookup list_lookup]);
  cbn [fst snd]; unfold balance_of; cbn [during store now];
  rewrite ?balance_in_with_balance, ?balance_in_with_balance_ne by done;
  rewrite ?balance_in_with_balance, ?balance_in_with_balance_ne by done.

(** Two mutations of the same account, the store answering every call.
    When one call ends before the other begins both take effect; when
    the calls overlap, in any of the four ways, both return and exactly
    one of them is lost: the balance is the one the last writer computed
    from the balance it had read at the start. *)
Theorem overlapping_mutations_lose_one_update (op1 op2 : Mutation)
    (accountId : string) (x y : Z) (w : World) (schedule : list nat) :
  ready w →
  let tasks := [Called op1 accountId x; Called op2 accountId y] in
  let B := balance_of w accountId in
  let r := interleave schedule tasks w in
  (schedule ∈ in_turn →
   r.2 = [Settled (Fulfilled tt); Settled (Fulfilled tt)]
   ∧ (balance_of r.1 accountId = new_balance op2 (new_balance op1 B x) y
      ∨ balance_of r.1 accountId = new_balance op1 (new_balance op2 B y) x))
  ∧ (schedule ∈ overlapping →
     r.2 = [Settled (Fulfilled tt); Settled (Fulfilled tt)]
     ∧ (balance_of r.1 accountId = new_balance op1 B x
        ∨ balance_of r.1 accountId = new_balance op2 B y)).
Proof.
  intros Hw tasks B r. unfold r, tasks, B, in_turn, overlapping. split; intros Hin.
  all: repeat (apply elem_of_cons in Hin as [->|Hin]);
    try (by apply elem_of_nil in Hin).
  all: run_schedule Hw; split; [done|]; unfold balance_of; auto.
Qed.

Lemma overlapping_mutations_lose_one_update_witness :
  ready (at_time 2 funded)
  ∧ [1; 0; 0; 1]%nat ∈ overlapping
  ∧ (balance_of (interleave [1; 0; 0; 1]%nat
                   [Called Increment "acc1" 50; Called Decrement "acc1" 30]
                   (at_time 2 funded)).1 "acc1"
     = new_balance Increment (balance_of (at_time 2 funded) "acc1") 50
     ∨ balance_of (interleave [1; 0; 0; 1]%nat
                     [Called Increment "acc1" 50; Called Decrement "acc1" 30]
                     (at_time 2 funded)).1 "acc1"
       = new_balance Decrement (balance_of (at_time 2 funded) "acc1") 30).
Proof.
  assert (Hw : ready (at_time 2 funded)) by done.
  assert (Hin : [1; 0; 0; 1]%nat ∈ overlapping).
  { unfold overlapping. rewrite !elem_of_cons. tauto. }
  split; [exact Hw|]. split; [exact Hin|].
  exact (proj2 (proj2 (overlapping_mutations_lose_one_update
                         Increment Decrement "acc1" 50 30 _ [1; 0; 0; 1]%nat Hw) Hin)).
Defined.

(** Two mutations of different accounts do not disturb each other: in
    each of the six orders both return and each account has the balance
    its own mutation computed. *)
Theorem mutations_of_different_accounts_commute (op1 op2 : Mutation)
    (a b : string) (x y : Z) (w : World) (schedule : list nat) :
  ready w → a ≠ b → schedule ∈ (in_turn ++ overlapping)%list →
  let r := interleave schedule [Called op1 a x; Called op2 b y] w in
  r.2 = [Settled (Fulfilled tt); Settled (Fulfilled tt)]
  ∧ balance_of r.1 a = new_balance op1 (balance_of w a) x
  ∧ balance_of r.1 b = new_balance op2 (balance_of w b) y.
Proof.
  intros Hw Hab Hin r. unfold r, in_turn, overlapping in *. simpl in Hin.
  assert (Hba : b ≠ a) by done.
  repeat (apply elem_of_cons in Hin as [->|Hin]); try (by apply elem_of_nil in Hin).
  all: run_schedule Hw; done.
Qed.

Lemma mutations_of_different_accounts_commute_witness :
  ready (at_time 2 funded)
  ∧ "acc1" ≠ "acc2"
  ∧ [0; 1; 1; 0]%nat ∈ (in_turn ++ overlapping)%list
  ∧ balance_of (interleave [0; 1; 1; 0]%nat
                  [Called Decrement "acc1" 30; Called Increment "acc2" 5]
                  (at_time 2 funded)).1 "acc1"
    = new_balance Decrement (balance_of (at_time 2 funded) "acc1") 30.
Proof.
  assert (Hw : ready (at_time 2 funded)) by done.
  assert (Hab : "acc1" ≠ "acc2") by done.
  assert (Hin : [0; 1; 1; 0]%nat ∈ (in_turn ++ overlapping)%list).
  { unfold in_turn, overlapping. simpl. rewrite !elem_of_cons. tauto. }
  split; [exact Hw|]. split; [exact Hab|]. split; [exact Hin|].
  exact (proj1 (proj2 (mutations_of_different_accounts_commute
                         Decrement Increment "acc1" "acc2" 30 5 _ _ Hw Hab Hin))).
Defined.
